(** * HookahSpliter backend: Telegram init-data verification and session issuance

    A shallow embedding of [backend/app.py]: the functions
    [derive_secret_key], [build_data_check_string], [verify_init_data],
    [make_jwt] and the handler [auth_telegram], together with the library
    routines they call ([urllib.parse.parse_qsl], [hmac]/[hashlib.sha256],
    [str.lower], [int], [str.strip], [json.loads]).

    Conventions.
    - A Python [str] is a list of Unicode code points, a [bytes] object a list
      of octets; both are lists over [Z].
    - Raising is explicit: a computation returns [Ok v] or [Raise e].
    - [time.time()] is a parameter [now] of the function that reads it. *)

From Stdlib Require Import String Ascii DecimalString.
From Stdlib Require Import ZArith List Bool Lia Permutation Sorted.
Import ListNotations.
Local Open Scope Z_scope.

Set Implicit Arguments.

(** ** Strings and bytes *)

Definition str := list Z.
Definition bytes := list Z.

(** An ASCII literal of the source, as code points. *)
Definition lit (s : string) : str :=
  List.map (fun a => Z.of_N (N_of_ascii a)) (list_ascii_of_string s).

Fixpoint str_eqb (a b : str) : bool :=
  match a, b with
  | [], [] => true
  | x :: a', y :: b' => (x =? y) && str_eqb a' b'
  | _, _ => false
  end.

(** [a < b] on [str]: lexicographic on code points. *)
Fixpoint str_ltb (a b : str) : bool :=
  match a, b with
  | _, [] => false
  | [], _ :: _ => true
  | x :: a', y :: b' => (x <? y) || ((x =? y) && str_ltb a' b')
  end.

(** [sep.join(parts)] *)
Fixpoint join (sep : str) (parts : list str) : str :=
  match parts with
  | [] => []
  | [p] => p
  | p :: rest => p ++ sep ++ join sep rest
  end.

(** ** SHA-256 (FIPS 180-4) and HMAC (RFC 2104), as [hashlib] and [hmac] compute them *)

Module SHA256.

Definition wrap (x : Z) : Z := x mod 2 ^ 32.
Definition add32 (x y : Z) : Z := wrap (x + y).
Definition rotr (n x : Z) : Z :=
  wrap (Z.lor (Z.shiftr x n) (Z.shiftl x (32 - n))).
Definition not32 (x : Z) : Z := 2 ^ 32 - 1 - x.

Definition ch (x y z : Z) : Z := Z.lxor (Z.land x y) (Z.land (not32 x) z).
Definition maj (x y z : Z) : Z :=
  Z.lxor (Z.lxor (Z.land x y) (Z.land x z)) (Z.land y z).
Definition bsig0 (x : Z) : Z := Z.lxor (Z.lxor (rotr 2 x) (rotr 13 x)) (rotr 22 x).
Definition bsig1 (x : Z) : Z := Z.lxor (Z.lxor (rotr 6 x) (rotr 11 x)) (rotr 25 x).
Definition ssig0 (x : Z) : Z := Z.lxor (Z.lxor (rotr 7 x) (rotr 18 x)) (Z.shiftr x 3).
Definition ssig1 (x : Z) : Z := Z.lxor (Z.lxor (rotr 17 x) (rotr 19 x)) (Z.shiftr x 10).

(** The first 64 primes. *)
Definition primes : list Z :=
  [ 2; 3; 5; 7; 11; 13; 17; 19; 23; 29; 31; 37; 41; 43; 47; 53; 59; 61; 67;
    71; 73; 79; 83; 89; 97; 101; 103; 107; 109; 113; 127; 131; 137; 139; 149;
    151; 157; 163; 167; 173; 179; 181; 191; 193; 197; 199; 211; 223; 227; 229;
    233; 239; 241; 251; 257; 263; 269; 271; 277; 281; 283; 293; 307; 311 ].

(** The integer cube root of [n], below [2 ^ k], one bit at a time. *)
Fixpoint cube_root (k : nat) (n acc : Z) : Z :=
  match k with
  | O => acc
  | S k' =>
      let c := acc + 2 ^ Z.of_nat k' in
      cube_root k' n (if c * c * c <=? n then c else acc)
  end.

(** The first 32 bits of the fractional parts of the cube roots of the
    primes. *)
Definition K : list Z :=
  Eval vm_compute in
    List.map (fun p => wrap (cube_root 36 (p * 2 ^ 96) 0)) primes.

(** The first 32 bits of the fractional parts of the square roots of the
    first 8 primes. *)
Definition H0 : list Z :=
  Eval vm_compute in
    List.map (fun p => wrap (Z.sqrt (p * 2 ^ 64))) (firstn 8 primes).

(** Big-endian octets of [x], [n] of them. *)
Fixpoint be_bytes (n : nat) (x : Z) : bytes :=
  match n with
  | O => []
  | S n' => be_bytes n' (x / 256) ++ [x mod 256]
  end.

Definition be_word (b : bytes) : Z :=
  fold_left (fun acc x => acc * 256 + x) b 0.

Definition pad (msg : bytes) : bytes :=
  let len := Z.of_nat (length msg) in
  msg ++ [0x80] ++ repeat 0 (Z.to_nat ((55 - len) mod 64)) ++ be_bytes 8 (8 * len).

(** Cut [l] into pieces of [n] elements. *)
Fixpoint chunks (A : Type) (fuel n : nat) (l : list A) : list (list A) :=
  match fuel, l with
  | O, _ | _, [] => []
  | S fuel', _ => firstn n l :: chunks fuel' n (skipn n l)
  end.

(** The message schedule, newest word first. *)
Fixpoint schedule (k : nat) (w : list Z) : list Z :=
  match k with
  | O => w
  | S k' =>
      let x := add32 (add32 (ssig1 (nth 1 w 0)) (nth 6 w 0))
                     (add32 (ssig0 (nth 14 w 0)) (nth 15 w 0)) in
      schedule k' (x :: w)
  end.

Definition round (s : list Z) (kw : Z * Z) : list Z :=
  match s with
  | [a; b; c; d; e; f; g; h] =>
      let t1 := add32 (add32 (add32 h (bsig1 e)) (add32 (ch e f g) (fst kw))) (snd kw) in
      let t2 := add32 (bsig0 a) (maj a b c) in
      [add32 t1 t2; a; b; c; add32 d t1; e; f; g]
  | _ => s
  end.

Definition compress (h : list Z) (block : bytes) : list Z :=
  let w16 := List.map be_word (chunks 16 4 block) in
  let w := rev (schedule 48 (rev w16)) in
  let s := fold_left round (combine K w) h in
  List.map (fun p => add32 (fst p) (snd p)) (combine h s).

Definition digest (msg : bytes) : bytes :=
  let p := pad msg in
  flat_map (be_bytes 4) (fold_left compress (chunks (length p) 64 p) H0).

End SHA256.

Module HMAC.

Definition block_size : nat := 64.

Definition xor_pad (c : Z) (key : bytes) : bytes :=
  List.map (fun k => Z.lxor k c) key.

(** [hmac.new(key, msg, hashlib.sha256).digest()] *)
Definition hmac_sha256 (key msg : bytes) : bytes :=
  let k0 := if (length key <=? block_size)%nat then key else SHA256.digest key in
  let k := k0 ++ repeat 0 (block_size - length k0) in
  SHA256.digest (xor_pad 0x5c k ++ SHA256.digest (xor_pad 0x36 k ++ msg)).

End HMAC.

Definition hex_digit (n : Z) : Z :=
  if n <? 10 then 48 + n else 87 + n.

(** [bytes.hex()], the form of [hexdigest()]: two lower-case digits per octet. *)
Definition hex (b : bytes) : str :=
  flat_map (fun x => [hex_digit (x / 16); hex_digit (x mod 16)]) b.

(** ** Exceptions *)

Inductive exn : Type :=
| HTTPException (status_code : Z) (detail : str)
| UnicodeEncodeError
| AttributeError
| TypeError.

Inductive result (A : Type) : Type :=
| Ok (a : A)
| Raise (e : exn).
Arguments Ok {A} a.
Arguments Raise {A} e.

Definition bind (A B : Type) (m : result A) (k : A -> result B) : result B :=
  match m with
  | Ok a => k a
  | Raise e => Raise e
  end.

Notation "x <- m ;; k" := (bind m (fun x => k))
  (at level 61, m at next level, right associativity).

(** The error kinds of the verifier and of the handler. *)
Definition no_hash : exn := HTTPException 400 (lit "no_hash").
Definition bad_hash : exn := HTTPException 401 (lit "bad_hash").
Definition expired : exn := HTTPException 401 (lit "expired").
Definition no_init_data : exn := HTTPException 400 (lit "no_init_data").
Definition bot_token_not_configured : exn :=
  HTTPException 500 (lit "bot_token_not_configured").

(** ** UTF-8 *)

(** [str.encode()]: UTF-8, strict. A surrogate cannot be encoded; a number
    that is no code point at all is treated alike. *)
Definition encode_cp (c : Z) : option bytes :=
  if (c <? 0) || (0x10FFFF <? c) then None
  else if c <? 0x80 then Some [c]
  else if c <? 0x800 then Some [0xC0 + c / 64; 0x80 + c mod 64]
  else if c <? 0x10000 then
    if (0xD800 <=? c) && (c <=? 0xDFFF) then None
    else Some [0xE0 + c / 4096; 0x80 + (c / 64) mod 64; 0x80 + c mod 64]
  else Some [0xF0 + c / 262144; 0x80 + (c / 4096) mod 64;
             0x80 + (c / 64) mod 64; 0x80 + c mod 64].

Fixpoint encode_utf8 (s : str) : option bytes :=
  match s with
  | [] => Some []
  | c :: s' =>
      match encode_cp c, encode_utf8 s' with
      | Some b, Some bs => Some (b ++ bs)
      | _, _ => None
      end
  end.

Definition encode (s : str) : result bytes :=
  match encode_utf8 s with
  | Some b => Ok b
  | None => Raise UnicodeEncodeError
  end.

Definition is_cont (b : Z) : bool := (0x80 <=? b) && (b <=? 0xBF).

Definition REPL : Z := 0xFFFD.

(** [bytes.decode('utf-8', 'replace')]: an ill-formed sequence is replaced by
    U+FFFD up to the first octet that cannot continue it, a truncated one at
    the end of the data by a single U+FFFD. *)
Fixpoint decode_replace (b : bytes) : str :=
  match b with
  | [] => []
  | b0 :: r0 =>
      if b0 <? 0x80 then b0 :: decode_replace r0
      else if b0 <? 0xC2 then REPL :: decode_replace r0
      else if b0 <? 0xE0 then
        match r0 with
        | [] => [REPL]
        | b1 :: r1 =>
            if is_cont b1
            then ((b0 - 0xC0) * 64 + (b1 - 0x80)) :: decode_replace r1
            else REPL :: decode_replace r0
        end
      else if b0 <? 0xF0 then
        match r0 with
        | [] => [REPL]
        | b1 :: r1 =>
            if negb (is_cont b1) || (if b1 <? 0xA0 then b0 =? 0xE0 else b0 =? 0xED)
            then REPL :: decode_replace r0
            else
              match r1 with
              | [] => [REPL]
              | b2 :: r2 =>
                  if is_cont b2
                  then ((b0 - 0xE0) * 4096 + (b1 - 0x80) * 64 + (b2 - 0x80))
                         :: decode_replace r2
                  else REPL :: decode_replace r1
              end
        end
      else if b0 <? 0xF5 then
        match r0 with
        | [] => [REPL]
        | b1 :: r1 =>
            if negb (is_cont b1) || (if b1 <? 0x90 then b0 =? 0xF0 else b0 =? 0xF4)
            then REPL :: decode_replace r0
            else
              match r1 with
              | [] => [REPL]
              | b2 :: r2 =>
                  if negb (is_cont b2) then REPL :: decode_replace r1
                  else
                    match r2 with
                    | [] => [REPL]
                    | b3 :: r3 =>
                        if is_cont b3
                        then ((b0 - 0xF0) * 262144 + (b1 - 0x80) * 4096
                              + (b2 - 0x80) * 64 + (b3 - 0x80)) :: decode_replace r3
                        else REPL :: decode_replace r2
                    end
              end
        end
      else REPL :: decode_replace r0
  end.

(** ** [urllib.parse.parse_qsl(qs, keep_blank_values=True)] *)

Definition AMP : Z := 38.      (* & *)
Definition EQUALS : Z := 61.   (* = *)
Definition PERCENT : Z := 37.  (* % *)
Definition PLUS : Z := 43.     (* + *)
Definition SPACE : Z := 32.
Definition NEWLINE : Z := 10.

(** [s.split(sep)] for a one-character separator. *)
Fixpoint split_on (sep : Z) (s : str) : list str :=
  match s with
  | [] => [[]]
  | c :: r =>
      if c =? sep then [] :: split_on sep r
      else match split_on sep r with
           | p :: ps => (c :: p) :: ps
           | [] => [[c]]
           end
  end.

(** [s.split(sep, 1)], completed with [''] when [sep] does not occur. *)
Fixpoint partition_at (sep : Z) (s : str) : str * str :=
  match s with
  | [] => ([], [])
  | c :: r =>
      if c =? sep then ([], r)
      else let (a, b) := partition_at sep r in (c :: a, b)
  end.

Definition plus_to_space (s : str) : str :=
  List.map (fun c => if c =? PLUS then SPACE else c) s.

(** The value of a hexadecimal digit, upper or lower case. *)
Definition hex_val (c : Z) : option Z :=
  if (48 <=? c) && (c <=? 57) then Some (c - 48)
  else if (65 <=? c) && (c <=? 70) then Some (c - 55)
  else if (97 <=? c) && (c <=? 102) then Some (c - 87)
  else None.

(** [_unquote_impl]: [%XX] becomes the octet [XX]; a [%] not followed by two
    hexadecimal digits stays. *)
Fixpoint unquote_to_bytes (s : str) : bytes :=
  match s with
  | [] => []
  | c :: r =>
      if c =? PERCENT then
        match r with
        | h1 :: h2 :: r2 =>
            match hex_val h1, hex_val h2 with
            | Some a, Some b => (16 * a + b) :: unquote_to_bytes r2
            | _, _ => PERCENT :: unquote_to_bytes r
            end
        | _ => PERCENT :: unquote_to_bytes r
        end
      else c :: unquote_to_bytes r
  end.

Definition is_ascii (c : Z) : bool := (0 <=? c) && (c <? 0x80).

(** The loop of [unquote]: every maximal run of ASCII characters is
    percent-decoded and read as UTF-8, the characters between the runs are
    kept. [run] is the run read so far. *)
Fixpoint unquote_runs (run : str) (s : str) : str :=
  match s with
  | [] => decode_replace (unquote_to_bytes run)
  | c :: r =>
      if is_ascii c then unquote_runs (run ++ [c]) r
      else decode_replace (unquote_to_bytes run) ++ c :: unquote_runs [] r
  end.

Definition unquote (s : str) : str :=
  if existsb (Z.eqb PERCENT) s then unquote_runs [] s else s.

(** One turn of the loop of [parse_qsl]: an empty field is skipped, a field
    without [=] has the empty value. *)
Definition parse_field (name_value : str) : list (str * str) :=
  match name_value with
  | [] => []
  | _ :: _ =>
      let (name, value) := partition_at EQUALS name_value in
      [(unquote (plus_to_space name), unquote (plus_to_space value))]
  end.

Definition parse_qsl (qs : str) : list (str * str) :=
  flat_map parse_field (split_on AMP qs).

(** ** [list.sort(key=...)] and [dict] *)

(** Stable insertion by key: [x] goes before the first element whose key is
    not smaller than its own. The result of a stable sort is unique, so this
    is the list [pairs.sort(key=lambda kv: kv[0])] leaves. *)
Fixpoint insert_by_key (x : str * str) (l : list (str * str)) : list (str * str) :=
  match l with
  | [] => [x]
  | y :: l' =>
      if str_ltb (fst y) (fst x) then y :: insert_by_key x l' else x :: y :: l'
  end.

Fixpoint sort_by_key (l : list (str * str)) : list (str * str) :=
  match l with
  | [] => []
  | x :: l' => insert_by_key x (sort_by_key l')
  end.

(** A [dict]: the items in insertion order, no key twice. *)
Definition dict (V : Type) := list (str * V).

Fixpoint dict_get (V : Type) (d : dict V) (k : str) : option V :=
  match d with
  | [] => None
  | (k', v) :: d' => if str_eqb k' k then Some v else dict_get d' k
  end.

(** [d[k] = v]: an existing key keeps its place and takes the new value. *)
Fixpoint dict_set (V : Type) (d : dict V) (k : str) (v : V) : dict V :=
  match d with
  | [] => [(k, v)]
  | (k', v') :: d' =>
      if str_eqb k' k then (k', v) :: d' else (k', v') :: dict_set d' k v
  end.

(** [dict(pairs)] *)
Definition dict_of (V : Type) (pairs : list (str * V)) : dict V :=
  fold_left (fun d kv => dict_set d (fst kv) (snd kv)) pairs [].

(** ** [build_data_check_string] *)

Definition excluded (k : str) : bool :=
  str_eqb k (lit "hash") || str_eqb k (lit "signature").

(** Line 48: the pairs other than [hash] and [signature]. *)
Definition drop_excluded (pairs_all : list (str * str)) : list (str * str) :=
  filter (fun kv => negb (excluded (fst kv))) pairs_all.

(** [pairs] after the sort of line 49. *)
Definition signed_pairs (pairs_all : list (str * str)) : list (str * str) :=
  sort_by_key (drop_excluded pairs_all).

Definition render_pair (kv : str * str) : str :=
  fst kv ++ [EQUALS] ++ snd kv.

Definition data_check_string (pairs_all : list (str * str)) : str :=
  join [NEWLINE] (List.map render_pair (signed_pairs pairs_all)).

Definition build_data_check_string (init_data : str) : str * dict str :=
  let pairs_all := parse_qsl init_data in
  let pairs := signed_pairs pairs_all in
  let data_check_string := join [NEWLINE] (List.map render_pair pairs) in
  let params := dict_of pairs_all in
  (data_check_string, params).

(** ** [str.lower], [str.strip], [int] *)

(** [str.lower()]. Code points outside ASCII are left as they are: Python
    maps some of them too, but none to a string of hexadecimal digits, which
    is all the result is compared with on line 62. *)
Definition py_lower (s : str) : str :=
  List.map (fun c => if (65 <=? c) && (c <=? 90) then c + 32 else c) s.

Definition in_range (lo hi c : Z) : bool := (lo <=? c) && (c <=? hi).

(** Unicode white space beyond ASCII. *)
Definition is_wide_space (c : Z) : bool :=
  (c =? 0x85) || (c =? 0xA0) || (c =? 0x1680) || in_range 0x2000 0x200A c
  || (c =? 0x2028) || (c =? 0x2029) || (c =? 0x202F) || (c =? 0x205F)
  || (c =? 0x3000).

(** [str.isspace] on one character. *)
Definition is_space (c : Z) : bool :=
  in_range 0x09 0x0D c || in_range 0x1C 0x1F c || (c =? 0x20) || is_wide_space c.

(** The white space [int] skips: the separators U+001C..U+001F are not. *)
Definition is_int_space (c : Z) : bool :=
  in_range 0x09 0x0D c || (c =? 0x20) || is_wide_space c.

Fixpoint drop_while (p : Z -> bool) (s : str) : str :=
  match s with
  | c :: r => if p c then drop_while p r else s
  | [] => []
  end.

(** [s.strip()] *)
Definition py_strip (s : str) : str :=
  rev (drop_while is_space (rev (drop_while is_space s))).

(** The code points of the digit zero of every decimal script (Unicode 14,
    the table of CPython 3.11); the nine digits follow each. *)
Definition decimal_zeros : list Z :=
  [ 0x30; 0x660; 0x6f0; 0x7c0; 0x966; 0x9e6; 0xa66; 0xae6; 0xb66; 0xbe6;
    0xc66; 0xce6; 0xd66; 0xde6; 0xe50; 0xed0; 0xf20; 0x1040; 0x1090; 0x17e0;
    0x1810; 0x1946; 0x19d0; 0x1a80; 0x1a90; 0x1b50; 0x1bb0; 0x1c40; 0x1c50;
    0xa620; 0xa8d0; 0xa900; 0xa9d0; 0xa9f0; 0xaa50; 0xabf0; 0xff10; 0x104a0;
    0x10d30; 0x11066; 0x110f0; 0x11136; 0x111d0; 0x112f0; 0x11450; 0x114d0;
    0x11650; 0x116c0; 0x11730; 0x118e0; 0x11950; 0x11c50; 0x11d50; 0x11da0;
    0x16a60; 0x16ac0; 0x16b50; 0x1d7ce; 0x1d7d8; 0x1d7e2; 0x1d7ec; 0x1d7f6;
    0x1e140; 0x1e2f0; 0x1e950; 0x1fbf0 ].

Definition decimal_value (c : Z) : option Z :=
  match find (fun z => in_range z (z + 9) c) decimal_zeros with
  | Some z => Some (c - z)
  | None => None
  end.

Definition UNDERSCORE : Z := 95.
Definition MINUS : Z := 45.

(** The longest interpreter-accepted digit string ([sys.int_info]). *)
Definition int_max_str_digits : Z := 4300.

(** The digits of [int]: decimal digits, one underscore allowed between two
    of them. Returns the value, the number of digits and what follows;
    [None] for a misplaced underscore. [prev] tells whether the previous
    character was an underscore. *)
Fixpoint scan_digits (s : str) (acc n : Z) (prev : bool) : option (Z * Z * str) :=
  match s with
  | [] => if prev then None else Some (acc, n, [])
  | c :: r =>
      if c =? UNDERSCORE then
        if prev then None else scan_digits r acc n true
      else
        match decimal_value c with
        | Some d => scan_digits r (10 * acc + d) (n + 1) false
        | None => if prev then None else Some (acc, n, s)
        end
  end.

(** [int(s)] for a [str]; [None] is [ValueError]. *)
Definition py_int (s : str) : option Z :=
  let s1 := drop_while is_int_space s in
  let (neg, s2) :=
    match s1 with
    | c :: r => if c =? MINUS then (true, r) else if c =? PLUS then (false, r) else (false, s1)
    | [] => (false, s1)
    end in
  match s2 with
  | c :: _ =>
      if c =? UNDERSCORE then None
      else
        match scan_digits s2 0 0 false with
        | Some (v, n, rest) =>
            if (n =? 0) || (int_max_str_digits <? n) then None
            else
              match drop_while is_int_space rest with
              | [] => Some (if neg then - v else v)
              | _ :: _ => None
              end
        | None => None
        end
  | [] => None
  end.

(** ** Python values and [json.loads] *)

(** A [float] is kept as the literal it was read from: [FDec neg m e] is the
    double nearest to [(-1)^neg * m * 10^e]. *)
Inductive pyfloat : Type :=
| FNan
| FInf (neg : bool)
| FDec (neg : bool) (m e : Z).

#[warnings="-register-all"]
Inductive pyval : Type :=
| PNone
| PBool (b : bool)
| PInt (z : Z)
| PFloat (f : pyfloat)
| PStr (s : str)
| PList (l : list pyval)
| PDict (d : list (str * pyval)).

(** [m * 10^e] is at most half the least positive double, [2^-1075], and so
    rounds to zero. *)
Definition float_is_zero (f : pyfloat) : bool :=
  match f with
  | FDec _ m e => (m =? 0) || ((e <? 0) && (m * 2 ^ 1075 <=? 10 ^ (- e)))
  | _ => false
  end.

(** [bool(v)] *)
Definition truthy (v : pyval) : bool :=
  match v with
  | PNone => false
  | PBool b => b
  | PInt z => negb (z =? 0)
  | PFloat f => negb (float_is_zero f)
  | PStr s => match s with [] => false | _ => true end
  | PList l => match l with [] => false | _ => true end
  | PDict d => match d with [] => false | _ => true end
  end.

Module JSON.

Definition is_ws (c : Z) : bool :=
  (c =? 32) || (c =? 9) || (c =? 10) || (c =? 13).

Definition skip_ws (s : str) : str := drop_while is_ws s.

Definition is_digit (c : Z) : bool := in_range 48 57 c.

Definition hex4 (a b c d : Z) : option Z :=
  match hex_val a, hex_val b, hex_val c, hex_val d with
  | Some x, Some y, Some z, Some w => Some (((x * 16 + y) * 16 + z) * 16 + w)
  | _, _, _, _ => None
  end.

Definition simple_escape (c : Z) : option Z :=
  if c =? 34 then Some 34          (* quote *)
  else if c =? 92 then Some 92     (* backslash *)
  else if c =? 47 then Some 47     (* slash *)
  else if c =? 98 then Some 8      (* b *)
  else if c =? 102 then Some 12    (* f *)
  else if c =? 110 then Some 10    (* n *)
  else if c =? 114 then Some 13    (* r *)
  else if c =? 116 then Some 9     (* t *)
  else None.

(** The body of a string after its opening quote: the decoded string and
    what follows the closing quote. [acc] is the decoded part, reversed. *)
Fixpoint scan_string (s : str) (acc : str) : option (str * str) :=
  match s with
  | [] => None
  | c :: r =>
      if c =? 34 then Some (rev acc, r)
      else if c =? 92 then
        match r with
        | [] => None
        | e :: r' =>
            if e =? 117 then
              match r' with
              | h1 :: h2 :: h3 :: h4 :: r4 =>
                  match hex4 h1 h2 h3 h4 with
                  | None => None
                  | Some c1 =>
                      if in_range 0xD800 0xDBFF c1 then
                        match r4 with
                        | 92 :: 117 :: g1 :: g2 :: g3 :: g4 :: r10 =>
                            match hex4 g1 g2 g3 g4 with
                            | None => None
                            | Some c2 =>
                                if in_range 0xDC00 0xDFFF c2
                                then scan_string r10
                                       (0x10000 + (c1 - 0xD800) * 1024 + (c2 - 0xDC00) :: acc)
                                else scan_string r4 (c1 :: acc)
                            end
                        | _ => scan_string r4 (c1 :: acc)
                        end
                      else scan_string r4 (c1 :: acc)
                  end
              | _ => None
              end
            else
              match simple_escape e with
              | Some x => scan_string r' (x :: acc)
              | None => None
              end
        end
      else if c <=? 0x1F then None
      else scan_string r (c :: acc)
  end.

(** The longest prefix of digits, its value, its length, and the rest. *)
Fixpoint span_digits (s : str) (acc n : Z) : Z * Z * str :=
  match s with
  | c :: r => if is_digit c then span_digits r (10 * acc + (c - 48)) (n + 1) else (acc, n, s)
  | [] => (acc, n, [])
  end.

(** A number: an optional minus sign, an integer part without leading
    zero, an optional fraction (a dot and digits) and an optional exponent
    (e or E, an optional sign, digits). It is an [int] without fraction and
    exponent, a [float] with either. *)
Definition scan_number (s : str) : option (pyval * str) :=
  let (neg, s1) :=
    match s with
    | c :: r => if c =? MINUS then (true, r) else (false, s)
    | [] => (false, s)
    end in
  match s1 with
  | c :: r =>
      if is_digit c then
        let '(ip, ilen, s2) := if c =? 48 then (0, 1, r) else span_digits s1 0 0 in
        let '(m, flen, s3, has_frac) :=
          match s2 with
          | 46 :: d :: _ =>
              if is_digit d
              then let '(m, n, s3) := span_digits (tl s2) ip 0 in (m, n, s3, true)
              else (ip, 0, s2, false)
          | _ => (ip, 0, s2, false)
          end in
        let '(ex, s4, has_exp) :=
          match s3 with
          | x :: t =>
              if (x =? 101) || (x =? 69) then
                let (eneg, t1) :=
                  match t with
                  | sg :: t' =>
                      if sg =? MINUS then (true, t') else if sg =? PLUS then (false, t') else (false, t)
                  | [] => (false, t)
                  end in
                let '(ev, en, t2) := span_digits t1 0 0 in
                if en =? 0 then (0, s3, false)
                else ((if eneg then - ev else ev), t2, true)
              else (0, s3, false)
          | [] => (0, s3, false)
          end in
        if has_frac || has_exp then Some (PFloat (FDec neg m (ex - flen)), s4)
        else if int_max_str_digits <? ilen then None
        else Some (PInt (if neg then - ip else ip), s4)
      else None
  | [] => None
  end.

(** [s] starts with [p]: what follows. *)
Fixpoint strip_prefix (p s : str) : option str :=
  match p, s with
  | [], _ => Some s
  | x :: p', y :: s' => if x =? y then strip_prefix p' s' else None
  | _ :: _, [] => None
  end.

Definition keyword (s : str) : option (pyval * str) :=
  match strip_prefix (lit "null") s with Some r => Some (PNone, r) | None =>
  match strip_prefix (lit "true") s with Some r => Some (PBool true, r) | None =>
  match strip_prefix (lit "false") s with Some r => Some (PBool false, r) | None =>
  match strip_prefix (lit "NaN") s with Some r => Some (PFloat FNan, r) | None =>
  match strip_prefix (lit "Infinity") s with Some r => Some (PFloat (FInf false), r) | None =>
  match strip_prefix (lit "-Infinity") s with Some r => Some (PFloat (FInf true), r) | None =>
  None end end end end end end.

(** The scanner. [scan_once] reads one value at the head of [s];
    [scan_items] the rest of an array, at an element; [scan_members] the
    rest of an object, at a key. Every call uses up fuel; a nested value
    and a further element each cost a character of the document, so twice
    its length is enough. *)
Fixpoint scan_once (fuel : nat) (s : str) : option (pyval * str) :=
  match fuel with
  | O => None
  | S fuel' =>
      match s with
      | [] => None
      | c :: r =>
          if c =? 34 then
            match scan_string r [] with
            | Some (x, rest) => Some (PStr x, rest)
            | None => None
            end
          else if c =? 123 then
            match skip_ws r with
            | 125 :: rest => Some (PDict [], rest)
            | r' =>
                match scan_members fuel' r' [] with
                | Some (d, rest) => Some (PDict d, rest)
                | None => None
                end
            end
          else if c =? 91 then
            match skip_ws r with
            | 93 :: rest => Some (PList [], rest)
            | r' =>
                match scan_items fuel' r' with
                | Some (l, rest) => Some (PList l, rest)
                | None => None
                end
            end
          else
            match keyword s with
            | Some res => Some res
            | None => scan_number s
            end
      end
  end
with scan_items (fuel : nat) (s : str) : option (list pyval * str) :=
  match fuel with
  | O => None
  | S fuel' =>
      match scan_once fuel' s with
      | None => None
      | Some (v, rest) =>
          match skip_ws rest with
          | 93 :: rest' => Some ([v], rest')
          | 44 :: rest' =>
              match scan_items fuel' (skip_ws rest') with
              | Some (l, rest2) => Some (v :: l, rest2)
              | None => None
              end
          | _ => None
          end
      end
  end
with scan_members (fuel : nat) (s : str) (d : dict pyval) : option (dict pyval * str) :=
  match fuel with
  | O => None
  | S fuel' =>
      match s with
      | 34 :: r =>
          match scan_string r [] with
          | None => None
          | Some (k, rest) =>
              match skip_ws rest with
              | 58 :: rest1 =>
                  match scan_once fuel' (skip_ws rest1) with
                  | None => None
                  | Some (v, rest2) =>
                      let d' := dict_set d k v in
                      match skip_ws rest2 with
                      | 125 :: rest3 => Some (d', rest3)
                      | 44 :: rest3 => scan_members fuel' (skip_ws rest3) d'
                      | _ => None
                      end
                  end
              | _ => None
              end
          end
      | _ => None
      end
  end.

(** [json.loads(s)]; [None] when it raises. The depth of nesting is not
    bounded here as the interpreter's recursion limit bounds it. *)
Definition loads (s : str) : option pyval :=
  match scan_once (2 * length s + 2) (skip_ws s) with
  | Some (v, rest) =>
      match skip_ws rest with
      | [] => Some v
      | _ :: _ => None
      end
  | None => None
  end.

End JSON.

(** ** [derive_secret_key] and [verify_init_data] *)

Definition derive_secret_key (bot_token : str) : result bytes :=
  token <- encode bot_token ;;
  Ok (HMAC.hmac_sha256 (lit "WebAppData") token).

(** [d.get(k) or default] for a [dict] of strings. *)
Definition get_or (d : dict str) (k default : str) : str :=
  match dict_get d k with
  | Some (c :: s) => c :: s
  | _ => default
  end.

Definition is_empty (s : str) : bool :=
  match s with
  | [] => true
  | _ :: _ => false
  end.

(** Lines 65-68: [auth_date], 0 when absent, empty or not a number. *)
Definition parse_auth_date (params : dict str) : Z :=
  match py_int (get_or params (lit "auth_date") (lit "0")) with
  | Some n => n
  | None => 0
  end.

(** Lines 73-79: the decoded [user] parameter, [None] when it is absent,
    empty or not JSON. *)
Definition decode_user (user_raw : option str) : pyval :=
  match user_raw with
  | Some (c :: s) =>
      match JSON.loads (c :: s) with
      | Some v => v
      | None => PNone
      end
  | _ => PNone
  end.

Record verified_data : Type := {
  user : pyval;
  params : dict str
}.

Definition verify_init_data (init_data bot_token : str) (ttl_sec now : Z)
  : result verified_data :=
  let (dcs, params) := build_data_check_string init_data in
  let provided_hash := py_lower (get_or params (lit "hash") []) in
  if is_empty provided_hash then Raise no_hash
  else
    secret_key <- derive_secret_key bot_token ;;
    message <- encode dcs ;;
    let expected := hex (HMAC.hmac_sha256 secret_key message) in
    if negb (str_eqb expected provided_hash) then Raise bad_hash
    else
      let auth_date := parse_auth_date params in
      if (auth_date =? 0) || (ttl_sec <? now - auth_date) then Raise expired
      else
        let user_raw := dict_get params (lit "user") in
        Ok {| user := decode_user user_raw; params := params |}.

(** ** [make_jwt] *)

(** What [str(v)] returns. For a float or a container it is the [repr] of
    the value, which is kept as such. *)
Inductive text : Type :=
| Text (s : str)
| Repr (v : pyval).

Definition py_str (v : pyval) : text :=
  match v with
  | PNone => Text (lit "None")
  | PBool true => Text (lit "True")
  | PBool false => Text (lit "False")
  | PInt z => Text (lit (NilZero.string_of_int (Z.to_int z)))
  | PStr s => Text s
  | _ => Repr v
  end.

(** [user.get(k, default)]; an object without [get] raises. *)
Definition py_get (v : pyval) (k : str) (default : pyval) : result pyval :=
  match v with
  | PDict d =>
      match dict_get d k with
      | Some x => Ok x
      | None => Ok default
      end
  | _ => Raise AttributeError
  end.

(** [" ".join([a, b])]: both items have to be strings. *)
Definition join_names (a b : pyval) : result str :=
  match a, b with
  | PStr x, PStr y => Ok (x ++ [SPACE] ++ y)
  | _, _ => Raise TypeError
  end.

(** "Гость Dev" *)
Definition guest_label : str :=
  [0x413; 0x43E; 0x441; 0x442; 0x44C; 0x20; 0x44; 0x65; 0x76].

Definition session_lifetime : Z := 60 * 60 * 24 * 30.

(** The claim set: [sub], [name], [iat], [exp] and the two entries of [tg]. *)
Record claims : Type := {
  sub : text;
  name : str;
  iat : Z;
  exp : Z;
  tg_id : pyval;
  tg_username : pyval
}.

(** [jwt.encode(payload, secret, algorithm="HS256")]: the token is kept as
    the claim set and the key it is computed from; what PyJWT itself does
    with them is not modelled. *)
Record jwt : Type := {
  payload : claims;
  signing_key : str
}.

Definition make_jwt (user : pyval) (secret : str) (now : Z) : result jwt :=
  sub_v <- (if truthy user then py_get user (lit "id") PNone
            else Ok (PStr (lit "guest"))) ;;
  name_v <- (if truthy user then
               first <- py_get user (lit "first_name") (PStr []) ;;
               last <- py_get user (lit "last_name") (PStr []) ;;
               joined <- join_names first last ;;
               Ok (py_strip joined)
             else Ok guest_label) ;;
  id_v <- (if truthy user then py_get user (lit "id") PNone else Ok PNone) ;;
  username_v <- (if truthy user then py_get user (lit "username") PNone
                 else Ok PNone) ;;
  Ok {| payload := {| sub := py_str sub_v;
                      name := name_v;
                      iat := now;
                      exp := now + session_lifetime;
                      tg_id := id_v;
                      tg_username := username_v |};
        signing_key := secret |}.

(** ** The handler [auth_telegram] *)

Record config : Type := {
  BOT_TOKEN : str;
  SESSION_SECRET : str;
  INITDATA_TTL_SEC : Z;
  DEV_ALLOW_ANON : bool;
  SECURE_COOKIES : bool
}.

Record AuthIn : Type := {
  initData : option str
}.

(** The arguments of [response.set_cookie]. *)
Record cookie : Type := {
  key : str;
  value : jwt;
  httponly : bool;
  secure : bool;
  samesite : str;
  max_age : Z;
  path : str
}.

(** What the handler leaves: the cookie set on the response and the body
    [{"ok": True, "user": ...}]. *)
Record reply : Type := {
  set_cookie : cookie;
  ok : bool;
  reply_user : pyval
}.

(** [{"id": 1, "first_name": "Гость", "last_name": "Dev"}] *)
Definition guest : pyval :=
  PDict [ (lit "id", PInt 1);
          (lit "first_name", PStr [0x413; 0x43E; 0x441; 0x442; 0x44C]);
          (lit "last_name", PStr (lit "Dev")) ].

(** The token of the guest session: [make_jwt(guest, secret)] at time [now]. *)
Definition guest_token (secret : str) (now : Z) : jwt :=
  {| payload := {| sub := Text (lit "1");
                   name := guest_label;
                   iat := now;
                   exp := now + session_lifetime;
                   tg_id := PInt 1;
                   tg_username := PNone |};
     signing_key := secret |}.

Definition session_cookie (cfg : config) (token : jwt) : cookie :=
  {| key := lit "sid";
     value := token;
     httponly := true;
     secure := SECURE_COOKIES cfg;
     samesite := if negb (SECURE_COOKIES cfg) then lit "lax" else lit "none";
     max_age := 60 * 60 * 24 * 30;
     path := lit "/" |}.

(** [not data.initData]: the field is [None] or the empty string. The model
    object [data] itself is never false. *)
Definition no_init (data : AuthIn) : bool :=
  match initData data with
  | Some (_ :: _) => false
  | _ => true
  end.

(** [now_verify] and [now_issue] are the two readings of the clock, the one
    of [verify_init_data] and the one of [make_jwt]. *)
Definition auth_telegram (cfg : config) (data : AuthIn) (now_verify now_issue : Z)
  : result reply :=
  if no_init data && DEV_ALLOW_ANON cfg then
    token <- make_jwt guest (SESSION_SECRET cfg) now_issue ;;
    Ok {| set_cookie := session_cookie cfg token; ok := true; reply_user := guest |}
  else if no_init data then Raise no_init_data
  else if is_empty (BOT_TOKEN cfg) then Raise bot_token_not_configured
  else
    verified <- verify_init_data (match initData data with Some s => s | None => [] end)
                                 (BOT_TOKEN cfg) (INITDATA_TTL_SEC cfg) now_verify ;;
    let user := if truthy (user verified) then user verified else PDict [] in
    token <- make_jwt user (SESSION_SECRET cfg) now_issue ;;
    Ok {| set_cookie := session_cookie cfg token; ok := true; reply_user := user |}.

(** ** The sender's side: [urllib.parse.urlencode] and the signature *)

Definition always_safe (b : Z) : bool :=
  in_range 48 57 b || in_range 65 90 b || in_range 97 122 b
  || (b =? 95) || (b =? 46) || (b =? 45) || (b =? 126).








(** ** The stages of [verify_init_data], for the statements below *)

(** Line 56: the [hash] parameter as it is compared. *)
Definition provided_hash (init_data : str) : str :=
  py_lower (get_or (snd (build_data_check_string init_data)) (lit "hash") []).

(** Lines 60-61: the hash the payload has to carry. *)
Definition expected_hash (init_data bot_token : str) : result str :=
  secret_key <- derive_secret_key bot_token ;;
  message <- encode (fst (build_data_check_string init_data)) ;;
  Ok (hex (HMAC.hmac_sha256 secret_key message)).

(** The payload gets past lines 56-63: it has a hash and it is the expected one. *)
Definition signature_passes (init_data bot_token : str) : bool :=
  match expected_hash init_data bot_token with
  | Ok expected =>
      negb (is_empty (provided_hash init_data))
      && str_eqb expected (provided_hash init_data)
  | Raise _ => false
  end.

(** The test of line 70, negated: the payload is not expired. *)
Definition fresh (init_data : str) (ttl_sec now : Z) : bool :=
  let auth_date := parse_auth_date (snd (build_data_check_string init_data)) in
  negb ((auth_date =? 0) || (ttl_sec <? now - auth_date)).


(** [v] is a JSON object. *)
Definition is_object (v : pyval) : bool :=
  match v with
  | PDict _ => true
  | _ => false
  end.

(** The value of the last pair of [l] with key [k]. *)
Fixpoint lookup_last (V : Type) (l : list (str * V)) (k : str) : option V :=
  match l with
  | [] => None
  | kv :: l' =>
      match lookup_last l' k with
      | Some v => Some v
      | None => if str_eqb (fst kv) k then Some (snd kv) else None
      end
  end.

(** [d.get(k, default)] on a [dict]. *)
Definition get_default (V : Type) (d : dict V) (k : str) (default : V) : V :=
  match dict_get d k with
  | Some x => x
  | None => default
  end.

(** The keys of [l] do not decrease. *)
Definition key_le (x y : str * str) : Prop := str_ltb (fst y) (fst x) = false.

(** [b] is an octet. *)
Definition is_octet (b : Z) : Prop := 0 <= b < 256.

(** The characters [quote_plus] produces. *)
Definition query_safe (c : Z) : bool :=
  always_safe c || (c =? PLUS) || (c =? PERCENT).

(** The digits of [hex]. *)
Definition is_lower_hex (c : Z) : bool :=
  in_range 48 57 c || in_range 97 102 c.

(** The pairs of [l] with key [k], in their order. *)
Definition with_key (k : str) (l : list (str * str)) : list (str * str) :=
  filter (fun kv => str_eqb (fst kv) k) l.

(** The values [l] has for the key [k], in their order. *)
Definition values_of (k : str) (l : list (str * str)) : list str :=
  List.map snd (with_key k l).

(** ** Sample payloads

    Signed for the bot token [sample_token]; the first one is the payload of
    the example of the specification, to be verified at time 1000000100 with
    a TTL of 86400 seconds. *)

Definition sample_token : str := lit "123456:ABC-DEF".

(** [user] is the object with the single member id, 42. *)
Definition sample_payload : str :=
  lit "auth_date=1000000000&user=%7B%22id%22%3A42%7D&hash=f118e98501ebb23008c0c2b814fe029e97b06b4006c1edfd50cc1d6da4779120".



(** No [auth_date]. *)
Definition sample_no_auth_date : str :=
  lit "user=%7B%22id%22%3A42%7D&hash=606d282c6f7299a988cda9d9c5f41ffe8e0bdf07175ee77dbd6a17aed0475a7b".

(** [auth_date] is not a number. *)
Definition sample_bad_auth_date : str :=
  lit "auth_date=abc&hash=24cf72f1f5a6d625d1e218bd0ec54f896861ba975e1d722164524b334cd6dc7c".

(** [auth_date] is 0. *)
Definition sample_zero_auth_date : str :=
  lit "auth_date=0&hash=b3791f096651364a3b307e07d79b706ebf6df60c092f9666378cd9946dcdc354".

Definition sample_config : config :=
  {| BOT_TOKEN := sample_token;
     SESSION_SECRET := lit "dev";
     INITDATA_TTL_SEC := 86400;
     DEV_ALLOW_ANON := false;
     SECURE_COOKIES := false |}.





(** [sample_config] with the guest mode on. *)
Definition sample_guest_config : config :=
  {| BOT_TOKEN := sample_token;
     SESSION_SECRET := lit "dev";
     INITDATA_TTL_SEC := 86400;
     DEV_ALLOW_ANON := true;
     SECURE_COOKIES := false |}.

(** ** [b64url] *)

Module Base64.

Definition PAD : Z := 61.   (* = *)

(** The character of the sextet [n] in the URL-safe alphabet. *)
Definition char (n : Z) : Z :=
  if n <? 26 then 65 + n
  else if n <? 52 then 97 + (n - 26)
  else if n <? 62 then 48 + (n - 52)
  else if n =? 62 then 45
  else 95.

(** [base64.urlsafe_b64encode(data)], padding included. *)
Fixpoint urlsafe_b64encode (data : bytes) : bytes :=
  match data with
  | [] => []
  | [x] => [char (x / 4); char (x mod 4 * 16); PAD; PAD]
  | [x; y] =>
      [char (x / 4); char (x mod 4 * 16 + y / 16); char (y mod 16 * 4); PAD]
  | x :: y :: z :: rest =>
      char (x / 4) :: char (x mod 4 * 16 + y / 16)
        :: char (y mod 16 * 4 + z / 64) :: char (z mod 64)
        :: urlsafe_b64encode rest
  end.

End Base64.

(** [s.rstrip(c)] for one character [c]. *)
Fixpoint rstrip (c : Z) (s : bytes) : bytes :=
  match s with
  | [] => []
  | a :: r =>
      match rstrip c r with
      | [] => if a =? c then [] else [a]
      | r' => a :: r'
      end
  end.

(** Line 39; the final [decode()] reads ASCII octets as the same characters. *)
Definition b64url (data : bytes) : str :=
  rstrip Base64.PAD (Base64.urlsafe_b64encode data).

(** ** The configuration, lines 11-17 and 29 *)

(** [os.getenv]: the value of a variable, if it is set. *)
Definition environ : Type := str -> option str.

(** [os.getenv(name) or default] *)
Definition getenv_or (env : environ) (name default : str) : str :=
  match env name with
  | Some (c :: s) => c :: s
  | _ => default
  end.

(** [os.getenv(name) == value] *)
Definition getenv_is (env : environ) (name value : str) : bool :=
  match env name with
  | Some s => str_eqb s value
  | None => false
  end.

(** Lines 11-15. [None]: [int] raises and the module is not loaded. *)
Definition load_config (env : environ) : option config :=
  let bot_token := getenv_or env (lit "BOT_TOKEN") [] in
  let session_secret := getenv_or env (lit "SESSION_SECRET") (lit "dev") in
  match py_int (getenv_or env (lit "INITDATA_TTL_SEC") (lit "86400")) with
  | None => None
  | Some ttl =>
      Some {| BOT_TOKEN := bot_token;
              SESSION_SECRET := session_secret;
              INITDATA_TTL_SEC := ttl;
              DEV_ALLOW_ANON := getenv_is env (lit "DEV_ALLOW_ANON") (lit "1");
              SECURE_COOKIES := getenv_is env (lit "SECURE_COOKIES") (lit "1") |}
  end.

Definition COMMA : Z := 44.

(** Line 17 *)
Definition allowed_origins (env : environ) : list str :=
  List.map py_strip
    (filter (fun o => negb (is_empty (py_strip o)))
       (split_on COMMA (getenv_or env (lit "CORS_ALLOWED_ORIGINS") []))).

(** Line 29: the origins the CORS middleware is given, the wildcard when
    [allowed_origins] is empty. *)
Definition cors_allow_origins (env : environ) : list str :=
  match allowed_origins env with
  | [] => [lit "*"]
  | o :: os => o :: os
  end.

(** ** [debug_env] *)

(** The answer of [/debug/env], entry by entry. *)
Record debug_info : Type := {
  dbg_DEV_ALLOW_ANON : str;
  dbg_SECURE_COOKIES : str;
  dbg_INITDATA_TTL_SEC : Z;
  dbg_CORS_ALLOWED_ORIGINS : list str;
  dbg_BOT_TOKEN_SET : bool
}.

Definition debug_env (cfg : config) (origins : list str) : debug_info :=
  {| dbg_DEV_ALLOW_ANON := if DEV_ALLOW_ANON cfg then lit "1" else lit "0";
     dbg_SECURE_COOKIES := if SECURE_COOKIES cfg then lit "1" else lit "0";
     dbg_INITDATA_TTL_SEC := INITDATA_TTL_SEC cfg;
     dbg_CORS_ALLOWED_ORIGINS := origins;
     dbg_BOT_TOKEN_SET := negb (is_empty (BOT_TOKEN cfg)) |}.

(** ** More sample payloads *)

(** [user] has a [first_name] that is null. *)
Definition sample_null_name : str :=
  lit "auth_date=1000000000&user=%7B%22id%22%3A1%2C%22first_name%22%3Anull%7D&hash=4f0083854592072738fcda93728ff5eb96a6a826316e42bd7639feba35b2801c".


(** A hash that is not the expected one. *)
Definition sample_wrong_hash : str := lit "auth_date=1000000000&hash=00".

(** A lone surrogate among the signed parameters. *)
Definition sample_surrogate : str := lit "a=" ++ [0xD800] ++ lit "&hash=ab".

(** A hexadecimal digit, of either case. *)
Definition is_hex_digit (c : Z) : bool :=
  in_range 48 57 c || in_range 65 70 c || in_range 97 102 c.

(** [first_name] and [last_name] of [d], where present, are strings. *)
Definition names_are_strings (d : dict pyval) : bool :=
  match get_default d (lit "first_name") (PStr []),
        get_default d (lit "last_name") (PStr []) with
  | PStr _, PStr _ => true
  | _, _ => false
  end.


(** An environment in which only [DEV_ALLOW_ANON] is set, to [value]. *)
Definition env_with_anon (value : str) : environ :=
  fun name => if str_eqb name (lit "DEV_ALLOW_ANON") then Some value else None.

(** The characters of the URL-safe base-64 alphabet. *)
Definition is_base64url_char (c : Z) : bool :=
  in_range 48 57 c || in_range 65 90 c || in_range 97 122 c || (c =? 45) || (c =? 95).

(** An environment in which only [CORS_ALLOWED_ORIGINS] is set, to [value]. *)
Definition env_with_origins (value : str) : environ :=
  fun name => if str_eqb name (lit "CORS_ALLOWED_ORIGINS") then Some value else None.

(** [s] does not begin with a character of [p]. *)
Definition begins_well (p : Z -> bool) (s : str) : Prop :=
  match s with
  | [] => True
  | c :: _ => p c = false
  end.

(** An environment in which only [BOT_TOKEN] is set, to [value]. *)
Definition env_with_token (value : str) : environ :=
  fun name => if str_eqb name (lit "BOT_TOKEN") then Some value else None.

(** * Properties *)

Unset Implicit Arguments.

(** ** Test vectors of the primitives *)

Example sha256_abc :
  hex (SHA256.digest (lit "abc"))
  = lit "ba7816bf8f01cfea414140de5dae2223b00361a396177a9cb410ff61f20015ad".
Proof. vm_compute. reflexivity. Qed.

Example hmac_rfc4231_case2 :
  hex (HMAC.hmac_sha256 (lit "Jefe") (lit "what do ya want for nothing?"))
  = lit "5bdcc146bf60754e6a042426089575c75a003f089d2739839dec58b964ec3843".
Proof. vm_compute. reflexivity. Qed.

Example sha256_empty :
  hex (SHA256.digest [])
  = lit "e3b0c44298fc1c149afbf4c8996fb92427ae41e4649b934ca495991b7852b855".
Proof. vm_compute. reflexivity. Qed.

Example sha256_two_blocks :
  hex (SHA256.digest (lit "abcdbcdecdefdefgefghfghighijhijkijkljklmklmnlmnomnopnopq"))
  = lit "248d6a61d20638b8e5c026930c3e6039a33ce45964ff2167f6ecedd419db06c1".
Proof. vm_compute. reflexivity. Qed.

Example hmac_rfc4231_case6 :
  hex (HMAC.hmac_sha256 (repeat 0xaa 131)
         (lit "Test Using Larger Than Block-Size Key - Hash Key First"))
  = lit "60e431591ee0b67f0d8a26aacbf5b77f8e0bc6213728c5140546040f0ee37f54".
Proof. vm_compute. reflexivity. Qed.

(** Proves a conjunction of closed equations by evaluation. *)
Ltac vm_conj :=
  repeat match goal with |- _ /\ _ => split end; vm_compute; reflexivity.

(** ** The library routines on sample inputs *)

Example parse_qsl_sample :
  parse_qsl (lit "a=1&b&&=&c+d=%41%zz&a=2")
  = [ (lit "a", lit "1"); (lit "b", []); ([], []); (lit "c d", lit "A%zz");
      (lit "a", lit "2") ].
Proof. vm_compute. reflexivity. Qed.

(** An escape that is not UTF-8 is read as U+FFFD, a character beyond ASCII
    is kept. *)
Example parse_qsl_not_utf8 :
  parse_qsl (lit "k=%E2%82%AC%FF%C3" ++ [0xE9])
  = [ (lit "k", [0x20AC; REPL; REPL; 0xE9]) ].
Proof. vm_compute. reflexivity. Qed.

Example py_int_samples :
  py_int (lit " 1_0 ") = Some 10 /\ py_int (lit "-007") = Some (-7)
  /\ py_int [0x663; 0x662] = Some 32
  /\ py_int (lit "1__0") = None /\ py_int (lit "1.5") = None
  /\ py_int (lit "abc") = None /\ py_int (lit "+") = None.
Proof. vm_conj. Qed.

Example json_loads_samples :
  JSON.loads (lit " [1, -2, null, true, [], {}] ")
  = Some (PList [PInt 1; PInt (-2); PNone; PBool true; PList []; PDict []])
  /\ JSON.loads (lit "12.5e-1") = Some (PFloat (FDec false 125 (-2)))
  /\ JSON.loads (lit "01") = None /\ JSON.loads (lit "[1,]") = None
  /\ JSON.loads (lit "{bad") = None /\ JSON.loads [] = None
  /\ JSON.loads [123; 34; 97; 34; 58; 49; 44; 34; 97; 34; 58; 50; 125]
     = Some (PDict [(lit "a", PInt 2)]).
Proof. vm_conj. Qed.

Example truthy_samples :
  truthy (PInt 0) = false /\ truthy (PFloat (FDec true 0 0)) = false
  /\ truthy (PFloat (FDec false 1 (-400))) = false
  /\ truthy (PFloat (FDec false 5 (-324))) = true
  /\ truthy (PStr []) = false /\ truthy (PList []) = false
  /\ truthy (PDict []) = false /\ truthy (PInt 42) = true.
Proof. vm_conj. Qed.

Example py_strip_sample :
  py_strip ([0x3000; 0x1C] ++ lit " Ann  Lee " ++ [0xA0; 0x0A]) = lit "Ann  Lee".
Proof. vm_compute. reflexivity. Qed.

(** ** Strings and dictionaries *)

Lemma str_eqb_eq (a b : str) : str_eqb a b = true <-> a = b.
Proof.
  revert b; induction a as [|x a IH]; intros [|y b]; simpl; split;
    try congruence; try reflexivity.
  - rewrite andb_true_iff, Z.eqb_eq, IH. intros [-> ->]. reflexivity.
  - intros H; injection H as -> ->. rewrite Z.eqb_refl. simpl. apply IH. reflexivity.
Qed.

Lemma str_eqb_refl (a : str) : str_eqb a a = true.
Proof. apply str_eqb_eq. reflexivity. Qed.

Lemma str_eqb_neq (a b : str) : str_eqb a b = false <-> a <> b.
Proof.
  split.
  - intros H E. apply str_eqb_eq in E. congruence.
  - intros H. destruct (str_eqb a b) eqn:E; [|reflexivity].
    apply str_eqb_eq in E. contradiction.
Qed.

Lemma str_eqb_sym (a b : str) : str_eqb a b = str_eqb b a.
Proof.
  destruct (str_eqb a b) eqn:E.
  - apply str_eqb_eq in E. subst. symmetry. apply str_eqb_refl.
  - symmetry. apply str_eqb_neq. apply str_eqb_neq in E. congruence.
Qed.

Section Dict.
Variable V : Type.

Lemma dict_get_set (d : dict V) (k k' : str) (v : V) :
  dict_get (dict_set d k v) k'
  = if str_eqb k k' then Some v else dict_get d k'.
Proof.
  induction d as [|[k0 v0] d IH]; simpl.
  - reflexivity.
  - destruct (str_eqb k0 k) eqn:E0; simpl.
    + apply str_eqb_eq in E0. subst k0.
      destruct (str_eqb k k'); reflexivity.
    + destruct (str_eqb k0 k') eqn:E1.
      * apply str_eqb_eq in E1. subst k0.
        rewrite str_eqb_sym, E0. reflexivity.
      * apply IH.
Qed.

Lemma dict_get_fold (l : list (str * V)) (d : dict V) (k : str) :
  dict_get (fold_left (fun d kv => dict_set d (fst kv) (snd kv)) l d) k
  = match lookup_last l k with
    | Some v => Some v
    | None => dict_get d k
    end.
Proof.
  revert d; induction l as [|[k0 v0] l IH]; intros d; simpl.
  - reflexivity.
  - rewrite IH. destruct (lookup_last l k); [reflexivity|].
    rewrite dict_get_set. destruct (str_eqb k0 k); reflexivity.
Qed.

(** [dict(pairs)[k]] is the value of the last pair with key [k]. *)
Lemma dict_get_dict_of (l : list (str * V)) (k : str) :
  dict_get (dict_of l) k = lookup_last l k.
Proof.
  unfold dict_of. rewrite dict_get_fold. destruct (lookup_last l k); reflexivity.
Qed.

Lemma lookup_last_app (l1 l2 : list (str * V)) (k : str) :
  lookup_last (l1 ++ l2) k
  = match lookup_last l2 k with
    | Some v => Some v
    | None => lookup_last l1 k
    end.
Proof.
  induction l1 as [|kv l1 IH]; simpl.
  - destruct (lookup_last l2 k); reflexivity.
  - rewrite IH. destruct (lookup_last l2 k); reflexivity.
Qed.

Lemma lookup_last_In (l : list (str * V)) (k : str) (v : V) :
  lookup_last l k = Some v -> In (k, v) l.
Proof.
  induction l as [|[k0 v0] l IH]; simpl; [discriminate|].
  destruct (lookup_last l k) eqn:E.
  - intros H; injection H as ->. right. apply IH. reflexivity.
  - destruct (str_eqb k0 k) eqn:E0; [|discriminate].
    intros H; injection H as ->. apply str_eqb_eq in E0. subst. left. reflexivity.
Qed.

Lemma lookup_last_None (l : list (str * V)) (k : str) :
  lookup_last l k = None -> ~ In k (List.map fst l).
Proof.
  induction l as [|[k0 v0] l IH]; simpl; [tauto|].
  destruct (lookup_last l k) eqn:E; [discriminate|].
  destruct (str_eqb k0 k) eqn:E0; [discriminate|].
  intros _ [H|H].
  - apply str_eqb_neq in E0. contradiction.
  - apply IH; [reflexivity|assumption].
Qed.

(** Without a repeated key, every pair is the one [dict(pairs)] keeps. *)
Lemma lookup_last_NoDup (l : list (str * V)) (k : str) (v : V) :
  NoDup (List.map fst l) -> In (k, v) l -> lookup_last l k = Some v.
Proof.
  induction l as [|[k0 v0] l IH]; simpl; [tauto|].
  intros ND [H|H]; inversion ND as [|? ? Hnot ND']; subst.
  - injection H as -> ->.
    destruct (lookup_last l k) eqn:E.
    + apply lookup_last_In in E. exfalso. apply Hnot.
      apply (in_map fst) in E. exact E.
    + rewrite str_eqb_refl. reflexivity.
  - rewrite (IH ND' H). reflexivity.
Qed.
End Dict.

(** ** The verifier, stage by stage *)

Lemma verify_init_data_stages (init_data bot_token : str) (ttl_sec now : Z) :
  verify_init_data init_data bot_token ttl_sec now
  = if is_empty (provided_hash init_data) then Raise no_hash
    else
      expected <- expected_hash init_data bot_token ;;
      if negb (str_eqb expected (provided_hash init_data)) then Raise bad_hash
      else if negb (fresh init_data ttl_sec now) then Raise expired
      else
        let params := snd (build_data_check_string init_data) in
        Ok {| user := decode_user (dict_get params (lit "user")); params := params |}.
Proof.
  unfold verify_init_data, provided_hash, expected_hash, fresh.
  destruct (build_data_check_string init_data) as [dcs ps]. cbn [fst snd].
  destruct (is_empty _); [reflexivity|].
  destruct (derive_secret_key bot_token) as [k|e]; [|reflexivity]. cbn [bind].
  destruct (encode dcs) as [m|e]; [|reflexivity]. cbn [bind].
  destruct (negb (str_eqb _ _)); [reflexivity|].
  rewrite negb_involutive.
  destruct (_ || _); reflexivity.
Qed.

Lemma signature_passes_spec (init_data bot_token : str) :
  signature_passes init_data bot_token = true
  <-> provided_hash init_data <> []
      /\ expected_hash init_data bot_token = Ok (provided_hash init_data).
Proof.
  unfold signature_passes.
  destruct (expected_hash init_data bot_token) as [x|e].
  - rewrite andb_true_iff, str_eqb_eq. split.
    + intros [H ->]. split; [|reflexivity].
      destruct (provided_hash init_data); [discriminate|discriminate].
    + intros [H E]. injection E as ->. split; [|reflexivity].
      destruct (provided_hash init_data); [contradiction|reflexivity].
  - split; [discriminate|]. intros [_ H]. discriminate.
Qed.

(** Past the signature check, only the freshness test decides. *)
Lemma verify_signed (init_data bot_token : str) (ttl_sec now : Z) :
  signature_passes init_data bot_token = true ->
  verify_init_data init_data bot_token ttl_sec now
  = if fresh init_data ttl_sec now
    then Ok {| user := decode_user (dict_get (snd (build_data_check_string init_data)) (lit "user"));
               params := snd (build_data_check_string init_data) |}
    else Raise expired.
Proof.
  intros H. apply signature_passes_spec in H. destruct H as [Hne He].
  rewrite verify_init_data_stages, He. cbn [bind].
  destruct (provided_hash init_data) eqn:E; [contradiction|]. cbn [is_empty].
  rewrite str_eqb_refl. cbn [negb].
  destruct (fresh init_data ttl_sec now); reflexivity.
Qed.

(** A payload that verifies has passed the signature check and is fresh. *)
Lemma verify_ok_inv (init_data bot_token : str) (ttl_sec now : Z) (v : verified_data) :
  verify_init_data init_data bot_token ttl_sec now = Ok v ->
  signature_passes init_data bot_token = true /\ fresh init_data ttl_sec now = true.
Proof.
  rewrite verify_init_data_stages. unfold signature_passes.
  destruct (is_empty (provided_hash init_data)) eqn:E; [discriminate|].
  destruct (expected_hash init_data bot_token) as [x|e]; [|discriminate]. cbn [bind].
  destruct (str_eqb x (provided_hash init_data)); [|discriminate]. cbn [negb].
  destruct (fresh init_data ttl_sec now); [|discriminate].
  intros _. split; reflexivity.
Qed.

Lemma get_or_absent (d : dict str) (k default : str) :
  dict_get d k = None \/ dict_get d k = Some [] -> get_or d k default = default.
Proof. unfold get_or. intros [-> | ->]; reflexivity. Qed.

Lemma py_int_zero : py_int (lit "0") = Some 0.
Proof. vm_compute. reflexivity. Qed.

Lemma py_int_empty : py_int [] = None.
Proof. reflexivity. Qed.

Lemma parse_auth_date_present (d : dict str) (a : str) (n : Z) :
  dict_get d (lit "auth_date") = Some a -> py_int a = Some n ->
  parse_auth_date d = n.
Proof.
  intros Hg Hi. unfold parse_auth_date, get_or. rewrite Hg.
  destruct a as [|c a]; [rewrite py_int_empty in Hi; discriminate|].
  rewrite Hi. reflexivity.
Qed.

Lemma parse_auth_date_missing (d : dict str) :
  dict_get d (lit "auth_date") = None -> parse_auth_date d = 0.
Proof.
  intros Hg. unfold parse_auth_date, get_or. rewrite Hg, py_int_zero. reflexivity.
Qed.

Lemma parse_auth_date_not_a_number (d : dict str) (a : str) :
  dict_get d (lit "auth_date") = Some a -> py_int a = None ->
  parse_auth_date d = 0.
Proof.
  intros Hg Hi. unfold parse_auth_date, get_or. rewrite Hg.
  destruct a as [|c a]; [rewrite py_int_zero; reflexivity|].
  rewrite Hi. reflexivity.
Qed.

Lemma fresh_zero (init_data : str) (ttl_sec now : Z) :
  parse_auth_date (snd (build_data_check_string init_data)) = 0 ->
  fresh init_data ttl_sec now = false.
Proof. unfold fresh. intros ->. reflexivity. Qed.

Lemma fresh_iff (init_data : str) (ttl_sec now : Z) :
  fresh init_data ttl_sec now = true
  <-> parse_auth_date (snd (build_data_check_string init_data)) <> 0
      /\ now - parse_auth_date (snd (build_data_check_string init_data)) <= ttl_sec.
Proof.
  unfold fresh. rewrite negb_true_iff, orb_false_iff, Z.eqb_neq, Z.ltb_ge. tauto.
Qed.

(** ** The example of the specification *)

Example sample_payload_verifies :
  verify_init_data sample_payload sample_token 86400 1000000100
  = Ok {| user := PDict [(lit "id", PInt 42)];
          params := snd (build_data_check_string sample_payload) |}.
Proof. vm_compute. reflexivity. Qed.

(** ** C3: a payload without hash is rejected first *)

(** C3. If the [hash] parameter is absent or its value is empty,
    [verify_init_data] fails with [no_hash] (MissingSignature), whatever the
    bot token, the TTL, the time and the [auth_date]: the failure is decided
    before the signature and the freshness are looked at. In particular the
    empty payload fails with [no_hash]. *)
Theorem missing_hash_fails_first :
  (forall (init_data bot_token : str) (ttl_sec now : Z),
      (dict_get (snd (build_data_check_string init_data)) (lit "hash") = None
       \/ dict_get (snd (build_data_check_string init_data)) (lit "hash") = Some []) ->
      verify_init_data init_data bot_token ttl_sec now = Raise no_hash)
  /\ (forall (bot_token : str) (ttl_sec now : Z),
         verify_init_data [] bot_token ttl_sec now = Raise no_hash).
Proof.
  assert (H : forall init_data bot_token ttl_sec now,
             (dict_get (snd (build_data_check_string init_data)) (lit "hash") = None
              \/ dict_get (snd (build_data_check_string init_data)) (lit "hash") = Some []) ->
             verify_init_data init_data bot_token ttl_sec now = Raise no_hash).
  { intros init_data bot_token ttl_sec now Hh.
    rewrite verify_init_data_stages. unfold provided_hash.
    rewrite get_or_absent by exact Hh. reflexivity. }
  split; [exact H|].
  intros bot_token ttl_sec now. apply H. left. reflexivity.
Qed.

(** A payload without hash whose [auth_date] is stale, and one whose hash is
    empty, under a token that cannot even be encoded. *)
Lemma missing_hash_fails_first_witness :
  (dict_get (snd (build_data_check_string (lit "auth_date=1&user=x"))) (lit "hash") = None
   /\ verify_init_data (lit "auth_date=1&user=x") sample_token 86400 1000000100
      = Raise no_hash)
  /\ (dict_get (snd (build_data_check_string (lit "hash=ab&auth_date=1&hash="))) (lit "hash")
      = Some []
      /\ verify_init_data (lit "hash=ab&auth_date=1&hash=") [0xD800] 86400 1000000100
         = Raise no_hash).
Proof.
  split; split.
  - vm_compute. reflexivity.
  - apply (proj1 missing_hash_fails_first). left. vm_compute. reflexivity.
  - vm_compute. reflexivity.
  - apply (proj1 missing_hash_fails_first). right. vm_compute. reflexivity.
Defined.

(** ** C4: the freshness boundary *)

(** C4. For a payload that passes the signature check: when [auth_date] is
    a number other than 0, [verify_init_data] succeeds if [now - auth_date]
    is exactly [ttl_sec] and fails with [expired] if it is [ttl_sec + 1];
    it fails with [expired] when [auth_date] is missing, is not a number,
    or is 0. *)
Theorem freshness_boundary (init_data bot_token : str) (ttl_sec now : Z) :
  signature_passes init_data bot_token = true ->
  let params := snd (build_data_check_string init_data) in
  (forall a d, dict_get params (lit "auth_date") = Some a -> py_int a = Some d ->
               d <> 0 -> now - d = ttl_sec ->
               verify_init_data init_data bot_token ttl_sec now
               = Ok {| user := decode_user (dict_get params (lit "user"));
                       params := params |})
  /\ (forall a d, dict_get params (lit "auth_date") = Some a -> py_int a = Some d ->
                  d <> 0 -> now - d = ttl_sec + 1 ->
                  verify_init_data init_data bot_token ttl_sec now = Raise expired)
  /\ (dict_get params (lit "auth_date") = None ->
      verify_init_data init_data bot_token ttl_sec now = Raise expired)
  /\ (forall a, dict_get params (lit "auth_date") = Some a -> py_int a = None ->
                verify_init_data init_data bot_token ttl_sec now = Raise expired)
  /\ (forall a, dict_get params (lit "auth_date") = Some a -> py_int a = Some 0 ->
                verify_init_data init_data bot_token ttl_sec now = Raise expired).
Proof.
  intros Hs params. rewrite (verify_signed _ _ ttl_sec now Hs). fold params.
  repeat split.
  - intros a d Hg Hi Hd Hn.
    assert (F : fresh init_data ttl_sec now = true).
    { apply fresh_iff. fold params. rewrite (parse_auth_date_present _ _ _ Hg Hi). lia. }
    rewrite F. reflexivity.
  - intros a d Hg Hi Hd Hn.
    destruct (fresh init_data ttl_sec now) eqn:F; [|reflexivity].
    apply fresh_iff in F. fold params in F.
    rewrite (parse_auth_date_present _ _ _ Hg Hi) in F. lia.
  - intros Hg. rewrite fresh_zero; [reflexivity|].
    apply parse_auth_date_missing. exact Hg.
  - intros a Hg Hi. rewrite fresh_zero; [reflexivity|].
    apply (parse_auth_date_not_a_number _ _ Hg Hi).
  - intros a Hg Hi. rewrite fresh_zero; [reflexivity|].
    apply (parse_auth_date_present _ _ _ Hg Hi).
Qed.

(** The sample payload at the boundary and one second later; the payloads
    without [auth_date], with a word for it, and with 0. *)
Lemma freshness_boundary_witness :
  signature_passes sample_payload sample_token = true
  /\ verify_init_data sample_payload sample_token 86400 1000086400
     = Ok {| user := PDict [(lit "id", PInt 42)];
             params := snd (build_data_check_string sample_payload) |}
  /\ verify_init_data sample_payload sample_token 86400 1000086401 = Raise expired
  /\ verify_init_data sample_no_auth_date sample_token 86400 1000000100 = Raise expired
  /\ verify_init_data sample_bad_auth_date sample_token 86400 1000000100 = Raise expired
  /\ verify_init_data sample_zero_auth_date sample_token 86400 1000000100 = Raise expired.
Proof.
  assert (S1 : signature_passes sample_payload sample_token = true)
    by (vm_compute; reflexivity).
  assert (S2 : signature_passes sample_no_auth_date sample_token = true)
    by (vm_compute; reflexivity).
  assert (S3 : signature_passes sample_bad_auth_date sample_token = true)
    by (vm_compute; reflexivity).
  assert (S4 : signature_passes sample_zero_auth_date sample_token = true)
    by (vm_compute; reflexivity).
  split; [exact S1|]. split; [|split; [|split; [|split]]].
  - apply (proj1 (freshness_boundary _ _ 86400 1000086400 S1))
      with (a := lit "1000000000") (d := 1000000000);
      [vm_compute; reflexivity | vm_compute; reflexivity | lia | lia].
  - apply (proj1 (proj2 (freshness_boundary _ _ 86400 1000086401 S1)))
      with (a := lit "1000000000") (d := 1000000000);
      [vm_compute; reflexivity | vm_compute; reflexivity | lia | lia].
  - apply (proj1 (proj2 (proj2 (freshness_boundary _ _ 86400 1000000100 S2)))).
    vm_compute. reflexivity.
  - apply (proj1 (proj2 (proj2 (proj2 (freshness_boundary _ _ 86400 1000000100 S3)))))
      with (a := lit "abc"); vm_compute; reflexivity.
  - apply (proj2 (proj2 (proj2 (proj2 (freshness_boundary _ _ 86400 1000000100 S4)))))
      with (a := lit "0"); vm_compute; reflexivity.
Defined.

(** ** C7: a [user] parameter that is not JSON *)



(** ** C10: the shape of the identity is not checked *)

Lemma make_jwt_not_object (v : pyval) (secret : str) (now : Z) :
  is_object v = false -> truthy v = true ->
  make_jwt v secret now = Raise AttributeError.
Proof.
  intros Ho Ht. unfold make_jwt. rewrite Ht.
  destruct v; try discriminate; reflexivity.
Qed.



(** ** C8: the guest fallback *)



(** With the guest mode on, a stale payload, a payload with a wrong hash and
    a payload without hash are each answered with their own error, and only
    a request without [initData] with the guest identity. *)
Example guest_mode_does_not_rescue_a_failure :
  auth_telegram sample_guest_config {| initData := Some sample_payload |}
    2000000000 2000000000
  = Raise expired
  /\ auth_telegram sample_guest_config
       {| initData := Some (lit "auth_date=1000000000&hash=00") |}
       1000000100 1000000100
     = Raise bad_hash
  /\ auth_telegram sample_guest_config
       {| initData := Some (lit "auth_date=1000000000") |} 1000000100 1000000100
     = Raise no_hash
  /\ option_map reply_user
       (match auth_telegram sample_guest_config {| initData := None |}
                1000000100 1000000100 with
        | Ok r => Some r
        | Raise _ => None
        end)
     = Some guest
  /\ auth_telegram sample_config {| initData := None |} 1000000100 1000000100
     = Raise no_init_data.
Proof. vm_conj. Qed.

(** ** C9: the claims of the token *)

Lemma py_get_dict (d : dict pyval) (k : str) (default : pyval) :
  py_get (PDict d) k default = Ok (get_default d k default).
Proof. unfold py_get, get_default. destruct (dict_get d k); reflexivity. Qed.

Lemma make_jwt_falsy (user : pyval) (secret : str) (now : Z) :
  truthy user = false ->
  make_jwt user secret now
  = Ok {| payload := {| sub := Text (lit "guest");
                        name := guest_label;
                        iat := now;
                        exp := now + 2592000;
                        tg_id := PNone;
                        tg_username := PNone |};
          signing_key := secret |}.
Proof. intros H. unfold make_jwt. rewrite H. reflexivity. Qed.




(** ** The order of strings and the sort *)

Lemma str_ltb_irrefl (a : str) : str_ltb a a = false.
Proof.
  induction a as [|x a IH]; simpl; [reflexivity|].
  rewrite Z.ltb_irrefl, Z.eqb_refl, IH. reflexivity.
Qed.

Lemma str_ltb_total (a b : str) :
  str_ltb a b = false -> str_ltb b a = false -> a = b.
Proof.
  revert b; induction a as [|x a IH]; intros [|y b]; simpl; try discriminate.
  - reflexivity.
  - rewrite !orb_false_iff, !andb_false_iff, !Z.ltb_ge, !Z.eqb_neq.
    intros [H1 H2] [H3 H4].
    assert (x = y) by lia. subst y. f_equal. apply IH.
    + destruct H2; [contradiction|assumption].
    + destruct H4; [contradiction|assumption].
Qed.

(** [<=] is transitive: [c <= b] and [b <= a] give [c <= a]. *)
Lemma str_leb_trans (a b c : str) :
  str_ltb a b = false -> str_ltb b c = false -> str_ltb a c = false.
Proof.
  revert b c; induction a as [|x a IH]; intros [|y b] [|z c]; simpl;
    try discriminate; try reflexivity.
  rewrite !orb_false_iff, !andb_false_iff, !Z.ltb_ge, !Z.eqb_neq.
  intros [H1 H2] [H3 H4]. split; [lia|].
  destruct (Z.eq_dec x z) as [->|Hxz]; [|left; exact Hxz]. right.
  assert (y = z) by lia. subst y.
  apply (IH b c).
  - destruct H2; [contradiction|assumption].
  - destruct H4; [contradiction|assumption].
Qed.

Lemma str_ltb_asym (a b : str) : str_ltb a b = true -> str_ltb b a = false.
Proof.
  revert b; induction a as [|x a IH]; intros [|y b]; simpl; try discriminate.
  - reflexivity.
  - rewrite orb_true_iff, andb_true_iff, Z.ltb_lt, Z.eqb_eq.
    rewrite orb_false_iff, andb_false_iff, Z.ltb_ge, Z.eqb_neq.
    intros [H|[-> H]].
    + split; [lia|left; lia].
    + split; [lia|right; apply IH; exact H].
Qed.

Lemma insert_by_key_perm (x : str * str) (l : list (str * str)) :
  Permutation (x :: l) (insert_by_key x l).
Proof.
  induction l as [|y l IH]; simpl.
  - apply Permutation_refl.
  - destruct (str_ltb (fst y) (fst x)).
    + eapply perm_trans; [apply perm_swap|]. apply perm_skip. exact IH.
    + apply Permutation_refl.
Qed.

Lemma sort_by_key_perm (l : list (str * str)) : Permutation l (sort_by_key l).
Proof.
  induction l as [|x l IH]; simpl.
  - apply perm_nil.
  - eapply perm_trans; [apply perm_skip; exact IH|]. apply insert_by_key_perm.
Qed.

Lemma insert_by_key_sorted (x : str * str) (l : list (str * str)) :
  StronglySorted key_le l -> StronglySorted key_le (insert_by_key x l).
Proof.
  induction 1 as [|y l Hs IH Hall]; simpl.
  - constructor; constructor.
  - destruct (str_ltb (fst y) (fst x)) eqn:E.
    + constructor; [exact IH|].
      apply (Permutation_Forall (insert_by_key_perm x l)).
      constructor; [|exact Hall].
      unfold key_le. apply str_ltb_asym. exact E.
    + constructor; [constructor; assumption|].
      constructor; [exact E|].
      apply Forall_forall. intros z Hz.
      rewrite Forall_forall in Hall. specialize (Hall z Hz).
      unfold key_le in *. apply (str_leb_trans _ (fst y)); assumption.
Qed.

Lemma sort_by_key_sorted (l : list (str * str)) : StronglySorted key_le (sort_by_key l).
Proof.
  induction l as [|x l IH]; simpl.
  - constructor.
  - apply insert_by_key_sorted. exact IH.
Qed.

(** Two sorted lists with the same pairs and no key twice are the same list. *)
Lemma sorted_perm_unique (l1 l2 : list (str * str)) :
  StronglySorted key_le l1 -> StronglySorted key_le l2 ->
  NoDup (List.map fst l1) -> Permutation l1 l2 -> l1 = l2.
Proof.
  revert l2; induction l1 as [|x l1 IH]; intros l2 S1 S2 ND P.
  - apply Permutation_nil in P. subst. reflexivity.
  - destruct l2 as [|y l2]; [apply Permutation_sym, Permutation_nil in P; discriminate|].
    inversion S1 as [|? ? S1' A1]; inversion S2 as [|? ? S2' A2]; subst.
    inversion ND as [|? ? Hnot ND']; subst.
    assert (Hxy : x = y).
    { destruct (Permutation_in x P (or_introl eq_refl)) as [->|Hx]; [reflexivity|].
      destruct (Permutation_in y (Permutation_sym P) (or_introl eq_refl)) as [->|Hy];
        [reflexivity|].
      rewrite Forall_forall in A1, A2.
      specialize (A1 y Hy). specialize (A2 x Hx). unfold key_le in *.
      exfalso. apply Hnot.
      rewrite (str_ltb_total _ _ A2 A1). apply in_map. exact Hy. }
    subst y. f_equal. apply IH; try assumption.
    apply (Permutation_cons_inv P).
Qed.

Lemma NoDup_perm_keys (l1 l2 : list (str * str)) :
  Permutation l1 l2 -> NoDup (List.map fst l1) -> NoDup (List.map fst l2).
Proof.
  intros P. apply Permutation_NoDup. apply Permutation_map. exact P.
Qed.

Lemma sort_by_key_unique (l1 l2 : list (str * str)) :
  Permutation l1 l2 -> NoDup (List.map fst l1) -> sort_by_key l1 = sort_by_key l2.
Proof.
  intros P ND. apply sorted_perm_unique.
  - apply sort_by_key_sorted.
  - apply sort_by_key_sorted.
  - apply (NoDup_perm_keys _ _ (sort_by_key_perm l1) ND).
  - eapply perm_trans; [apply Permutation_sym, sort_by_key_perm|].
    eapply perm_trans; [exact P|]. apply sort_by_key_perm.
Qed.

(** ** Stability of the sort *)

Lemma with_key_values (k : str) (l : list (str * str)) :
  with_key k l = List.map (fun v => (k, v)) (values_of k l).
Proof.
  unfold values_of, with_key. induction l as [|[k0 v0] l IH]; simpl; [reflexivity|].
  destruct (str_eqb k0 k) eqn:E; [|exact IH].
  apply str_eqb_eq in E. subst k0. simpl. f_equal. exact IH.
Qed.

Lemma with_key_insert (k : str) (x : str * str) (l : list (str * str)) :
  with_key k (insert_by_key x l) = with_key k (x :: l).
Proof.
  unfold with_key. induction l as [|y l IH]; [reflexivity|].
  cbn [insert_by_key]. destruct (str_ltb (fst y) (fst x)) eqn:E; [|reflexivity].
  cbn [filter] in *. rewrite IH.
  destruct (str_eqb (fst y) k) eqn:Ey; [|reflexivity].
  destruct (str_eqb (fst x) k) eqn:Ex; [|reflexivity].
  apply str_eqb_eq in Ey, Ex. rewrite Ey, Ex, str_ltb_irrefl in E. discriminate E.
Qed.

(** The sort keeps the pairs of each key in the order they came in. *)
Lemma with_key_sort (k : str) (l : list (str * str)) :
  with_key k (sort_by_key l) = with_key k l.
Proof.
  induction l as [|x l IH]; [reflexivity|].
  cbn [sort_by_key]. rewrite with_key_insert. unfold with_key in *.
  cbn [filter]. rewrite IH. reflexivity.
Qed.

Lemma with_key_head (x : str * str) (l : list (str * str)) :
  with_key (fst x) (x :: l) = x :: with_key (fst x) l.
Proof. unfold with_key. cbn [filter]. rewrite str_eqb_refl. reflexivity. Qed.

Lemma with_key_In (k : str) (x : str * str) (l : list (str * str)) :
  In x (with_key k l) -> In x l.
Proof. unfold with_key. intros H. apply filter_In in H. tauto. Qed.

(** Two sorted lists with the same pairs in the same order for each key are
    the same list. *)
Lemma sorted_stable_unique (l1 l2 : list (str * str)) :
  StronglySorted key_le l1 -> StronglySorted key_le l2 ->
  (forall k, with_key k l1 = with_key k l2) -> l1 = l2.
Proof.
  revert l2; induction l1 as [|x l1 IH]; intros l2 S1 S2 H.
  - destruct l2 as [|y l2]; [reflexivity|].
    specialize (H (fst y)). rewrite with_key_head in H. discriminate H.
  - destruct l2 as [|y l2].
    + specialize (H (fst x)). rewrite with_key_head in H. discriminate H.
    + inversion S1 as [|? ? S1' A1]; inversion S2 as [|? ? S2' A2]; subst.
      assert (Hxy : x = y).
      { assert (Hx := H (fst x)). assert (Hy := H (fst y)).
        rewrite with_key_head in Hx. rewrite with_key_head in Hy.
        unfold with_key in Hx at 2. unfold with_key in Hy at 1.
        cbn [filter] in Hx, Hy.
        destruct (str_eqb (fst y) (fst x)) eqn:E.
        - congruence.
        - rewrite str_eqb_sym, E in Hy.
          assert (Ix : In x l2).
          { apply (with_key_In (fst x)). unfold with_key. rewrite <- Hx.
            left. reflexivity. }
          assert (Iy : In y l1).
          { apply (with_key_In (fst y)). unfold with_key. rewrite Hy.
            left. reflexivity. }
          rewrite Forall_forall in A1, A2.
          specialize (A1 y Iy). specialize (A2 x Ix). unfold key_le in *.
          apply str_eqb_neq in E. exfalso. apply E.
          symmetry. apply (str_ltb_total _ _ A2 A1). }
      subst y. f_equal. apply IH; try assumption.
      intros k. specialize (H k). unfold with_key in *. cbn [filter] in H.
      destruct (str_eqb (fst x) k); congruence.
Qed.

Lemma sort_by_key_stable (l1 l2 : list (str * str)) :
  (forall k, values_of k l1 = values_of k l2) -> sort_by_key l1 = sort_by_key l2.
Proof.
  intros H. apply sorted_stable_unique; try apply sort_by_key_sorted.
  intros k. rewrite !with_key_sort, !with_key_values, H. reflexivity.
Qed.

(** ** C5: the order of the parameters *)

(** Parameters without a repeated key, in any order. *)
Lemma canonical_string_distinct_keys (init_data1 init_data2 : str) :
  Permutation (drop_excluded (parse_qsl init_data1))
              (drop_excluded (parse_qsl init_data2)) ->
  NoDup (List.map fst (drop_excluded (parse_qsl init_data1))) ->
  fst (build_data_check_string init_data1) = fst (build_data_check_string init_data2).
Proof.
  intros P ND. unfold build_data_check_string, signed_pairs. cbn [fst].
  rewrite (sort_by_key_unique _ _ P ND). reflexivity.
Qed.

(** C5, as the code has it. Two payloads in which every key other than
    [hash] and [signature] has the same values in the same order, the keys
    themselves coming in any order, have the same data-check string and,
    for every bot token, the same expected hash. *)
Theorem canonical_string_order_independent (init_data1 init_data2 : str) :
  (forall k, values_of k (drop_excluded (parse_qsl init_data1))
             = values_of k (drop_excluded (parse_qsl init_data2))) ->
  fst (build_data_check_string init_data1) = fst (build_data_check_string init_data2)
  /\ forall bot_token,
       expected_hash init_data1 bot_token = expected_hash init_data2 bot_token.
Proof.
  intros H.
  assert (E : fst (build_data_check_string init_data1)
              = fst (build_data_check_string init_data2)).
  { unfold build_data_check_string, signed_pairs. cbn [fst].
    rewrite (sort_by_key_stable _ _ H). reflexivity. }
  split; [exact E|].
  intros bot_token. unfold expected_hash. rewrite E. reflexivity.
Qed.

(** The key [a], repeated, with its values in the same order, and the key
    [b] before it in one payload and after it in the other. *)
Lemma canonical_string_order_independent_witness :
  (forall k, values_of k (drop_excluded (parse_qsl (lit "b=2&a=1&hash=00&a=3")))
             = values_of k (drop_excluded (parse_qsl (lit "hash=ff&a=1&signature=x&a=3&b=2"))))
  /\ fst (build_data_check_string (lit "b=2&a=1&hash=00&a=3"))
     = fst (build_data_check_string (lit "hash=ff&a=1&signature=x&a=3&b=2")).
Proof.
  assert (E1 : drop_excluded (parse_qsl (lit "b=2&a=1&hash=00&a=3"))
               = [(lit "b", lit "2"); (lit "a", lit "1"); (lit "a", lit "3")])
    by (vm_compute; reflexivity).
  assert (E2 : drop_excluded (parse_qsl (lit "hash=ff&a=1&signature=x&a=3&b=2"))
               = [(lit "a", lit "1"); (lit "a", lit "3"); (lit "b", lit "2")])
    by (vm_compute; reflexivity).
  assert (H : forall k,
             values_of k (drop_excluded (parse_qsl (lit "b=2&a=1&hash=00&a=3")))
             = values_of k (drop_excluded
                              (parse_qsl (lit "hash=ff&a=1&signature=x&a=3&b=2")))).
  { intros k. rewrite E1, E2. unfold values_of, with_key. cbn [filter fst].
    destruct (str_eqb (lit "a") k) eqn:Ea; destruct (str_eqb (lit "b") k) eqn:Eb;
      try reflexivity.
    apply str_eqb_eq in Ea, Eb. rewrite <- Ea in Eb. discriminate Eb. }
  split; [exact H|].
  apply (proj1 (canonical_string_order_independent _ _ H)).
Defined.

(** C5 as stated fails with a repeated key: [a=1&a=2] and [a=2&a=1] hold the
    same pairs, the sort keeps the two in the order they came in, and the
    data-check strings and expected hashes differ. *)
Lemma repeated_key_keeps_payload_order :
  Permutation (drop_excluded (parse_qsl (lit "a=1&a=2")))
              (drop_excluded (parse_qsl (lit "a=2&a=1")))
  /\ fst (build_data_check_string (lit "a=1&a=2")) = lit "a=1" ++ [NEWLINE] ++ lit "a=2"
  /\ fst (build_data_check_string (lit "a=2&a=1")) = lit "a=2" ++ [NEWLINE] ++ lit "a=1"
  /\ fst (build_data_check_string (lit "a=1&a=2"))
     <> fst (build_data_check_string (lit "a=2&a=1"))
  /\ expected_hash (lit "a=1&a=2") sample_token
     <> expected_hash (lit "a=2&a=1") sample_token.
Proof.
  assert (E1 : drop_excluded (parse_qsl (lit "a=1&a=2"))
               = [(lit "a", lit "1"); (lit "a", lit "2")])
    by (vm_compute; reflexivity).
  assert (E2 : drop_excluded (parse_qsl (lit "a=2&a=1"))
               = [(lit "a", lit "2"); (lit "a", lit "1")])
    by (vm_compute; reflexivity).
  split; [rewrite E1, E2; apply perm_swap|].
  split; [vm_compute; reflexivity|].
  split; [vm_compute; reflexivity|].
  split; vm_compute; discriminate.
Qed.

(** ** C6: repeated keys *)

Lemma lookup_last_drop_excluded (l : list (str * str)) (k : str) :
  excluded k = false -> lookup_last (drop_excluded l) k = lookup_last l k.
Proof.
  intros Hk. unfold drop_excluded.
  induction l as [|[k0 v0] l IH]; simpl; [reflexivity|].
  destruct (excluded k0) eqn:E0; simpl.
  - rewrite IH. destruct (lookup_last l k); [reflexivity|].
    destruct (str_eqb k0 k) eqn:E; [|reflexivity].
    apply str_eqb_eq in E. subst k0. congruence.
  - rewrite IH. reflexivity.
Qed.

Lemma signed_pairs_In (pairs_all : list (str * str)) (kv : str * str) :
  In kv (signed_pairs pairs_all) <-> In kv pairs_all /\ excluded (fst kv) = false.
Proof.
  unfold signed_pairs, drop_excluded. split.
  - intros H. apply (Permutation_in _ (Permutation_sym (sort_by_key_perm _))) in H.
    apply filter_In in H. destruct H as [H1 H2]. split; [exact H1|].
    apply negb_true_iff. exact H2.
  - intros [H1 H2]. apply (Permutation_in _ (sort_by_key_perm _)).
    apply filter_In. split; [exact H1|]. apply negb_true_iff. exact H2.
Qed.

(** C6, as the code has it. The data-check string is the rendering of
    [signed_pairs], which holds every occurrence of every key other than
    [hash] and [signature], while the returned mapping keeps the last value
    of each key. So the value the mapping has for such a key is always one
    of the pairs of the data-check string; and when no such key occurs
    twice in the payload, the pairs of the data-check string are exactly the
    entries of the mapping for these keys. *)
Theorem canonical_pairs_and_mapping (init_data : str) :
  let pairs := signed_pairs (parse_qsl init_data) in
  let params := snd (build_data_check_string init_data) in
  fst (build_data_check_string init_data) = join [NEWLINE] (List.map render_pair pairs)
  /\ (forall k v, excluded k = false -> dict_get params k = Some v -> In (k, v) pairs)
  /\ (NoDup (List.map fst (drop_excluded (parse_qsl init_data))) ->
      forall k v, In (k, v) pairs <-> excluded k = false /\ dict_get params k = Some v).
Proof.
  intros pairs params. subst pairs params.
  unfold build_data_check_string. cbn [fst snd].
  split; [reflexivity|].
  assert (A : forall k v, excluded k = false ->
                dict_get (dict_of (parse_qsl init_data)) k = Some v ->
                In (k, v) (signed_pairs (parse_qsl init_data))).
  { intros k v Hk Hg. rewrite dict_get_dict_of in Hg.
    apply signed_pairs_In. split; [|exact Hk].
    apply lookup_last_In. exact Hg. }
  split; [exact A|].
  intros ND k v. split.
  - intros H. apply signed_pairs_In in H. destruct H as [Hin Hk]. cbn [fst] in Hk.
    split; [exact Hk|].
    rewrite dict_get_dict_of, <- (lookup_last_drop_excluded _ _ Hk).
    apply lookup_last_NoDup; [exact ND|].
    unfold drop_excluded. apply filter_In. split; [exact Hin|].
    cbn [fst]. rewrite Hk. reflexivity.
  - intros [Hk Hg]. apply A; assumption.
Qed.

Lemma canonical_pairs_and_mapping_witness :
  (excluded (lit "a") = false
   /\ NoDup (List.map fst (drop_excluded (parse_qsl (lit "b=2&hash=00&a=1&hash=ff")))))
  /\ (In (lit "a", lit "1") (signed_pairs (parse_qsl (lit "b=2&hash=00&a=1&hash=ff")))
      <-> excluded (lit "a") = false
          /\ dict_get (snd (build_data_check_string (lit "b=2&hash=00&a=1&hash=ff")))
               (lit "a") = Some (lit "1")).
Proof.
  assert (ND : NoDup (List.map fst
                        (drop_excluded (parse_qsl (lit "b=2&hash=00&a=1&hash=ff"))))).
  { assert (E : drop_excluded (parse_qsl (lit "b=2&hash=00&a=1&hash=ff"))
                = [(lit "b", lit "2"); (lit "a", lit "1")])
      by (vm_compute; reflexivity).
    rewrite E. simpl. constructor.
    - intros [H|[]]. vm_compute in H. discriminate H.
    - constructor; [intros []|constructor]. }
  split; [split; [reflexivity|exact ND]|].
  apply (proj2 (proj2 (canonical_pairs_and_mapping (lit "b=2&hash=00&a=1&hash=ff"))) ND).
Defined.

(** C6 as stated fails: in [a=1&a=2] the data-check string has both
    [a=1] and [a=2], the mapping only [a] with the value 2. *)
Lemma repeated_key_signed_but_not_mapped :
  fst (build_data_check_string (lit "a=1&a=2")) = lit "a=1" ++ [NEWLINE] ++ lit "a=2"
  /\ In (lit "a", lit "1") (signed_pairs (parse_qsl (lit "a=1&a=2")))
  /\ snd (build_data_check_string (lit "a=1&a=2")) = [(lit "a", lit "2")]
  /\ dict_get (snd (build_data_check_string (lit "a=1&a=2"))) (lit "a")
     <> Some (lit "1").
Proof.
  split; [vm_compute; reflexivity|].
  split; [vm_compute; left; reflexivity|].
  split; [vm_compute; reflexivity|].
  vm_compute. discriminate.
Qed.

(** ** C2: tampering *)

(** A payload that verifies carries the hash that is expected of it. *)
Lemma verify_ok_expected (init_data bot_token : str) (ttl_sec now : Z) (v : verified_data) :
  verify_init_data init_data bot_token ttl_sec now = Ok v ->
  expected_hash init_data bot_token = Ok (provided_hash init_data).
Proof.
  intros H. apply verify_ok_inv in H. destruct H as [H _].
  apply signature_passes_spec in H. tauto.
Qed.




(** ** UTF-8: decoding what [encode] produced *)










Lemma Some_inj (A : Type) (x y : A) : Some x = Some y -> x = y.
Proof. congruence. Qed.



(** ** Splitting a query string *)


Lemma split_on_whole (sep : Z) (a : str) :
  Forall (fun c => c <> sep) a -> split_on sep a = [a].
Proof.
  induction 1 as [|c a Hc Ha IH]; simpl.
  - reflexivity.
  - apply Z.eqb_neq in Hc. rewrite Hc, IH. reflexivity.
Qed.

Lemma partition_at_app (sep : Z) (a b : str) :
  Forall (fun c => c <> sep) a ->
  partition_at sep (a ++ sep :: b) = (a, b).
Proof.
  induction 1 as [|c a Hc Ha IH]; simpl.
  - rewrite Z.eqb_refl. reflexivity.
  - apply Z.eqb_neq in Hc. rewrite Hc, IH. reflexivity.
Qed.



(** ** Quoting and unquoting *)

(** Turns the boolean tests of the hypotheses and of the goal into
    arithmetic. *)
Ltac tests_to_Z :=
  unfold query_safe, always_safe, is_lower_hex, is_ascii, in_range, is_octet,
    AMP, EQUALS, PERCENT, PLUS, SPACE in *;
  repeat rewrite ?orb_true_iff, ?andb_true_iff, ?orb_false_iff, ?andb_false_iff,
    ?Z.leb_le, ?Z.ltb_lt, ?Z.eqb_eq, ?Z.leb_gt, ?Z.ltb_ge, ?Z.eqb_neq in *.




Lemma nibbles (b : Z) :
  is_octet b -> 0 <= b / 16 < 16 /\ 0 <= b mod 16 < 16 /\ 16 * (b / 16) + b mod 16 = b.
Proof.
  unfold is_octet. intros H.
  assert (H1 := Z.div_mod b 16 ltac:(lia)).
  assert (H2 := Z.mod_pos_bound b 16 ltac:(lia)). lia.
Qed.


















(** ** The hash in hexadecimal *)

Lemma be_bytes_octets (n : nat) (x : Z) : Forall is_octet (SHA256.be_bytes n x).
Proof.
  revert x; induction n as [|n IH]; intros x; simpl.
  - constructor.
  - apply Forall_app. split; [apply IH|].
    constructor; [|constructor]. unfold is_octet.
    apply Z.mod_pos_bound. lia.
Qed.

Lemma digest_octets (msg : bytes) : Forall is_octet (SHA256.digest msg).
Proof.
  unfold SHA256.digest.
  induction (fold_left SHA256.compress
               (SHA256.chunks (length (SHA256.pad msg)) 64 (SHA256.pad msg)) SHA256.H0)
    as [|w ws IH]; cbn [flat_map].
  - constructor.
  - apply Forall_app. split; [apply (be_bytes_octets 4)|exact IH].
Qed.

Lemma round_length (s : list Z) (kw : Z * Z) :
  length s = 8%nat -> length (SHA256.round s kw) = 8%nat.
Proof.
  destruct s as [|a [|b [|c [|d [|e [|f [|g [|h [|i s]]]]]]]]]; try discriminate.
  reflexivity.
Qed.

Lemma rounds_length (kws : list (Z * Z)) (s : list Z) :
  length s = 8%nat -> length (fold_left SHA256.round kws s) = 8%nat.
Proof.
  revert s; induction kws as [|kw kws IH]; intros s H; simpl.
  - exact H.
  - apply IH. apply round_length. exact H.
Qed.

Lemma compress_length (h : list Z) (block : bytes) :
  length h = 8%nat -> length (SHA256.compress h block) = 8%nat.
Proof.
  intros H. unfold SHA256.compress.
  rewrite length_map, length_combine, rounds_length by exact H. rewrite H. reflexivity.
Qed.

Lemma compress_all_length (blocks : list bytes) (h : list Z) :
  length h = 8%nat -> length (fold_left SHA256.compress blocks h) = 8%nat.
Proof.
  revert h; induction blocks as [|b blocks IH]; intros h H; simpl.
  - exact H.
  - apply IH. apply compress_length. exact H.
Qed.


Lemma hex_digit_lower (n : Z) : 0 <= n < 16 -> is_lower_hex (hex_digit n) = true.
Proof.
  intros H. unfold hex_digit. destruct (Z.ltb_spec n 10); tests_to_Z; lia.
Qed.

Lemma hex_lower (b : bytes) :
  Forall is_octet b -> Forall (fun c => is_lower_hex c = true) (hex b).
Proof.
  induction 1 as [|x b Hx Hb IH]; simpl.
  - constructor.
  - destruct (nibbles x Hx) as (N1 & N2 & _).
    constructor; [apply hex_digit_lower; exact N1|].
    constructor; [apply hex_digit_lower; exact N2|exact IH].
Qed.







(** ** C1: signing, then verifying *)







(** * Further properties of the verifier *)

Lemma get_or_nonempty (d : dict str) (k default : str) :
  get_or d k default <> default ->
  exists v, dict_get d k = Some v /\ v <> [] /\ get_or d k default = v.
Proof.
  unfold get_or. destruct (dict_get d k) as [[|c s]|]; try (intros H; contradiction H; reflexivity).
  intros _. exists (c :: s). split; [reflexivity|]. split; [discriminate|reflexivity].
Qed.

Lemma provided_hash_present (init_data : str) :
  provided_hash init_data <> [] ->
  exists h, dict_get (snd (build_data_check_string init_data)) (lit "hash") = Some h
            /\ h <> [] /\ provided_hash init_data = py_lower h.
Proof.
  unfold provided_hash. intros H.
  destruct (get_or_nonempty (snd (build_data_check_string init_data)) (lit "hash") [])
    as (h & H1 & H2 & H3).
  - intros E. rewrite E in H. apply H. reflexivity.
  - exists h. rewrite H3. auto.
Qed.

Lemma parse_auth_date_nonzero (d : dict str) :
  parse_auth_date d <> 0 ->
  exists a, dict_get d (lit "auth_date") = Some a /\ py_int a = Some (parse_auth_date d).
Proof.
  unfold parse_auth_date, get_or.
  destruct (dict_get d (lit "auth_date")) as [[|c s]|].
  - rewrite py_int_zero. intros H. contradiction H. reflexivity.
  - destruct (py_int (c :: s)) as [n|] eqn:E.
    + intros _. exists (c :: s). split; [reflexivity|exact E].
    + intros H. contradiction H. reflexivity.
  - rewrite py_int_zero. intros H. contradiction H. reflexivity.
Qed.

Lemma expected_hash_inv (init_data bot_token h : str) :
  expected_hash init_data bot_token = Ok h ->
  exists secret_key message,
    derive_secret_key bot_token = Ok secret_key
    /\ encode (fst (build_data_check_string init_data)) = Ok message
    /\ h = hex (HMAC.hmac_sha256 secret_key message).
Proof.
  unfold expected_hash.
  destruct (derive_secret_key bot_token) as [k|e]; [|discriminate]. cbn [bind].
  destruct (encode (fst (build_data_check_string init_data))) as [m|e]; [|discriminate].
  cbn [bind]. intros E. exists k, m. split; [reflexivity|]. split; [reflexivity|].
  congruence.
Qed.

(** X1. Soundness: when [verify_init_data] succeeds, the [hash] parameter of
    the payload, lower-cased, is the hexadecimal HMAC-SHA256 of the
    data-check string under the key derived from the bot token; [auth_date]
    is present, a number other than 0, and not older than [ttl_sec]; the
    mapping returned is the one of the payload and the identity is what its
    [user] parameter decodes to. *)
Theorem verification_is_sound
  (init_data bot_token : str) (ttl_sec now : Z) (v : verified_data) :
  verify_init_data init_data bot_token ttl_sec now = Ok v ->
  exists secret_key message h a d,
    derive_secret_key bot_token = Ok secret_key
    /\ encode (fst (build_data_check_string init_data)) = Ok message
    /\ dict_get (params v) (lit "hash") = Some h
    /\ py_lower h = hex (HMAC.hmac_sha256 secret_key message)
    /\ dict_get (params v) (lit "auth_date") = Some a
    /\ py_int a = Some d /\ d <> 0 /\ now - d <= ttl_sec
    /\ params v = dict_of (parse_qsl init_data)
    /\ user v = decode_user (dict_get (params v) (lit "user")).
Proof.
  intros H. destruct (verify_ok_inv _ _ _ _ _ H) as [Hs Hf].
  rewrite (verify_signed _ _ ttl_sec now Hs), Hf in H.
  assert (Hv : v = {| user := decode_user
                               (dict_get (snd (build_data_check_string init_data)) (lit "user"));
                      params := snd (build_data_check_string init_data) |}) by congruence.
  subst v. cbn [params user].
  apply signature_passes_spec in Hs. destruct Hs as [Hne He].
  destruct (expected_hash_inv _ _ _ He) as (k & m & Hk & Hm & Hh).
  destruct (provided_hash_present _ Hne) as (h & Hg & _ & Hp).
  apply fresh_iff in Hf. destruct Hf as [Hd Hn].
  destruct (parse_auth_date_nonzero _ Hd) as (a & Ha & Hi).
  exists k, m, h, a, (parse_auth_date (snd (build_data_check_string init_data))).
  repeat (split; [first [assumption | congruence | reflexivity]|]).
  reflexivity.
Qed.

Lemma verification_is_sound_witness :
  verify_init_data sample_payload sample_token 86400 1000000100
  = Ok {| user := PDict [(lit "id", PInt 42)];
          params := snd (build_data_check_string sample_payload) |}
  /\ exists secret_key message h a d,
       derive_secret_key sample_token = Ok secret_key
       /\ encode (fst (build_data_check_string sample_payload)) = Ok message
       /\ dict_get (snd (build_data_check_string sample_payload)) (lit "hash") = Some h
       /\ py_lower h = hex (HMAC.hmac_sha256 secret_key message)
       /\ dict_get (snd (build_data_check_string sample_payload)) (lit "auth_date") = Some a
       /\ py_int a = Some d /\ d <> 0 /\ 1000000100 - d <= 86400
       /\ snd (build_data_check_string sample_payload) = dict_of (parse_qsl sample_payload)
       /\ PDict [(lit "id", PInt 42)]
          = decode_user (dict_get (snd (build_data_check_string sample_payload)) (lit "user")).
Proof.
  split; [exact sample_payload_verifies|].
  exact (verification_is_sound sample_payload sample_token 86400 1000000100 _
           sample_payload_verifies).
Defined.

(** X2. A payload with a hash whose bot token or data-check string cannot be
    encoded as UTF-8 (a lone surrogate among the signed parameters) is not
    answered with [bad_hash]: [verify_init_data] raises
    [UnicodeEncodeError]. *)
Theorem unencodable_payload_raises (init_data bot_token : str) (ttl_sec now : Z) :
  provided_hash init_data <> [] ->
  encode_utf8 bot_token = None
  \/ encode_utf8 (fst (build_data_check_string init_data)) = None ->
  verify_init_data init_data bot_token ttl_sec now = Raise UnicodeEncodeError.
Proof.
  intros Hne H. rewrite verify_init_data_stages.
  destruct (provided_hash init_data); [contradiction|]. cbn [is_empty].
  unfold expected_hash, derive_secret_key, encode.
  destruct (encode_utf8 bot_token) as [t|]; cbn [bind]; [|reflexivity].
  destruct H as [H|H]; [discriminate H|]. rewrite H. reflexivity.
Qed.

Lemma unencodable_payload_raises_witness :
  (provided_hash sample_surrogate <> []
   /\ encode_utf8 (fst (build_data_check_string sample_surrogate)) = None)
  /\ verify_init_data sample_surrogate sample_token 86400 1000000100
     = Raise UnicodeEncodeError.
Proof.
  assert (H1 : provided_hash sample_surrogate <> []) by (vm_compute; discriminate).
  assert (H2 : encode_utf8 (fst (build_data_check_string sample_surrogate)) = None)
    by (vm_compute; reflexivity).
  split; [split; assumption|].
  exact (unencodable_payload_raises sample_surrogate sample_token 86400 1000000100
           H1 (or_intror H2)).
Defined.

(** X3. A payload that does not pass the signature check is answered the
    same at every time and under every TTL: whether its [auth_date] is fresh
    has no part in the answer. *)
Theorem signature_failure_ignores_time
  (init_data bot_token : str) (ttl_sec now ttl_sec' now' : Z) :
  signature_passes init_data bot_token = false ->
  verify_init_data init_data bot_token ttl_sec now
  = verify_init_data init_data bot_token ttl_sec' now'.
Proof.
  intros H. rewrite !verify_init_data_stages. unfold signature_passes in H.
  destruct (is_empty (provided_hash init_data)) eqn:E; [reflexivity|].
  destruct (expected_hash init_data bot_token) as [x|e]; [|reflexivity]. cbn [bind].
  cbn [negb andb] in H. rewrite H. reflexivity.
Qed.

Lemma signature_failure_ignores_time_witness :
  signature_passes sample_wrong_hash sample_token = false
  /\ verify_init_data sample_wrong_hash sample_token 86400 1000000100
     = verify_init_data sample_wrong_hash sample_token 1 2000000000.
Proof.
  assert (H : signature_passes sample_wrong_hash sample_token = false)
    by (vm_compute; reflexivity).
  split; [exact H|].
  exact (signature_failure_ignores_time sample_wrong_hash sample_token
           86400 1000000100 1 2000000000 H).
Defined.

Lemma fresh_monotone (init_data : str) (ttl_sec now ttl_sec' now' : Z) :
  now' <= now -> ttl_sec <= ttl_sec' ->
  fresh init_data ttl_sec now = true -> fresh init_data ttl_sec' now' = true.
Proof.
  intros Hn Ht H. apply fresh_iff in H. apply fresh_iff. lia.
Qed.

(** X4. Expiry only moves one way. A payload that verifies at some time
    under some TTL verifies with the same result at any earlier time and
    under any larger TTL; and one that is expired stays expired at any later
    time and under any smaller TTL. *)
Theorem expiry_is_monotone
  (init_data bot_token : str) (ttl_sec now ttl_sec' now' : Z) :
  now' <= now -> ttl_sec <= ttl_sec' ->
  (forall v, verify_init_data init_data bot_token ttl_sec now = Ok v ->
             verify_init_data init_data bot_token ttl_sec' now' = Ok v)
  /\ (verify_init_data init_data bot_token ttl_sec' now' = Raise expired ->
      verify_init_data init_data bot_token ttl_sec now = Raise expired).
Proof.
  intros Hn Ht. split.
  - intros v H. destruct (verify_ok_inv _ _ _ _ _ H) as [Hs Hf].
    rewrite (verify_signed _ _ ttl_sec now Hs), Hf in H.
    rewrite (verify_signed _ _ ttl_sec' now' Hs),
      (fresh_monotone _ _ _ _ _ Hn Ht Hf). exact H.
  - intros H.
    destruct (signature_passes init_data bot_token) eqn:Hs.
    + rewrite (verify_signed _ _ ttl_sec' now' Hs) in H.
      rewrite (verify_signed _ _ ttl_sec now Hs).
      destruct (fresh init_data ttl_sec now) eqn:Hf; [|reflexivity].
      rewrite (fresh_monotone _ _ _ _ _ Hn Ht Hf) in H. discriminate H.
    + rewrite verify_init_data_stages in H |- *. unfold signature_passes in Hs.
      destruct (is_empty (provided_hash init_data)); [exact H|].
      destruct (expected_hash init_data bot_token) as [x|e]; [|exact H].
      cbn [bind negb andb] in *. rewrite Hs in *. exact H.
Qed.

Lemma expiry_is_monotone_witness :
  (1000000050 <= 1000000100 /\ 86400 <= 90000)
  /\ (forall v, verify_init_data sample_payload sample_token 86400 1000000100 = Ok v ->
                verify_init_data sample_payload sample_token 90000 1000000050 = Ok v)
  /\ (verify_init_data sample_payload sample_token 90000 1000000050 = Raise expired ->
      verify_init_data sample_payload sample_token 86400 1000000100 = Raise expired).
Proof.
  assert (H1 : 1000000050 <= 1000000100) by lia.
  assert (H2 : 86400 <= 90000) by lia.
  split; [split; assumption|].
  exact (expiry_is_monotone sample_payload sample_token 86400 1000000100
           90000 1000000050 H1 H2).
Defined.

(** X5. There is no lower bound on the age: a signed payload whose
    [auth_date] lies in the future, however far, is accepted under every
    TTL that is not negative. *)
Theorem future_auth_date_accepted
  (init_data bot_token : str) (ttl_sec now : Z) :
  signature_passes init_data bot_token = true ->
  0 <= ttl_sec ->
  parse_auth_date (snd (build_data_check_string init_data)) <> 0 ->
  now <= parse_auth_date (snd (build_data_check_string init_data)) ->
  exists v, verify_init_data init_data bot_token ttl_sec now = Ok v.
Proof.
  intros Hs Ht Hd Hn. rewrite (verify_signed _ _ ttl_sec now Hs).
  assert (Hf : fresh init_data ttl_sec now = true) by (apply fresh_iff; lia).
  rewrite Hf. eexists. reflexivity.
Qed.

Lemma future_auth_date_accepted_witness :
  (signature_passes sample_payload sample_token = true
   /\ parse_auth_date (snd (build_data_check_string sample_payload)) = 1000000000)
  /\ exists v, verify_init_data sample_payload sample_token 0 5 = Ok v.
Proof.
  assert (H1 : signature_passes sample_payload sample_token = true)
    by (vm_compute; reflexivity).
  assert (H2 : parse_auth_date (snd (build_data_check_string sample_payload)) = 1000000000)
    by (vm_compute; reflexivity).
  split; [split; assumption|].
  apply (future_auth_date_accepted sample_payload sample_token 0 5 H1).
  - lia.
  - rewrite H2. lia.
  - rewrite H2. lia.
Defined.

(** ** The length of the hash *)

Lemma be_bytes_length (n : nat) (x : Z) : length (SHA256.be_bytes n x) = n.
Proof.
  revert x; induction n as [|n IH]; intros x; simpl; [reflexivity|].
  rewrite length_app, IH. simpl. lia.
Qed.

Lemma flat_map_be_bytes_length (ws : list Z) :
  length (flat_map (SHA256.be_bytes 4) ws) = (4 * length ws)%nat.
Proof.
  induction ws as [|w ws IH]; [reflexivity|].
  cbn [flat_map]. rewrite length_app, be_bytes_length, IH. simpl. lia.
Qed.

Lemma digest_length (msg : bytes) : length (SHA256.digest msg) = 32%nat.
Proof.
  unfold SHA256.digest. rewrite flat_map_be_bytes_length.
  rewrite compress_all_length; reflexivity.
Qed.

Lemma hex_length (b : bytes) : length (hex b) = (2 * length b)%nat.
Proof.
  induction b as [|x b IH]; [reflexivity|].
  unfold hex in *. cbn [flat_map]. rewrite length_app, IH. simpl. lia.
Qed.

Lemma hmac_length (key msg : bytes) : length (HMAC.hmac_sha256 key msg) = 32%nat.
Proof. unfold HMAC.hmac_sha256. apply digest_length. Qed.

Lemma hmac_octets (key msg : bytes) : Forall is_octet (HMAC.hmac_sha256 key msg).
Proof. unfold HMAC.hmac_sha256. apply digest_octets. Qed.

Lemma py_lower_length (s : str) : length (py_lower s) = length s.
Proof. unfold py_lower. apply length_map. Qed.

Lemma py_lower_hex_digit (s : str) :
  Forall (fun c => is_lower_hex c = true) (py_lower s) ->
  Forall (fun c => is_hex_digit c = true) s.
Proof.
  unfold py_lower. induction s as [|c s IH]; intros H; [constructor|].
  cbn [List.map] in H. inversion H as [|x l Hc Hs]; subst.
  constructor; [|apply IH; exact Hs].
  clear IH H Hs. unfold is_hex_digit, is_lower_hex, in_range in *.
  destruct ((65 <=? c) && (c <=? 90)) eqn:E; tests_to_Z; lia.
Qed.

(** X6. What is accepted as a hash: when [verify_init_data] succeeds, the
    [hash] parameter is exactly 64 hexadecimal digits, of either case; and
    the key derived from the bot token is 32 octets long. *)
Theorem accepted_hash_is_64_hex_digits
  (init_data bot_token : str) (ttl_sec now : Z) (v : verified_data) :
  verify_init_data init_data bot_token ttl_sec now = Ok v ->
  exists h secret_key,
    dict_get (params v) (lit "hash") = Some h
    /\ length h = 64%nat
    /\ Forall (fun c => is_hex_digit c = true) h
    /\ derive_secret_key bot_token = Ok secret_key
    /\ length secret_key = 32%nat
    /\ Forall is_octet secret_key.
Proof.
  intros H. destruct (verify_ok_inv _ _ _ _ _ H) as [Hs Hf].
  rewrite (verify_signed _ _ ttl_sec now Hs), Hf in H.
  assert (Hv : params v = snd (build_data_check_string init_data))
    by (apply (f_equal (fun r => match r with Ok x => params x | Raise _ => [] end)) in H;
        symmetry; exact H).
  rewrite Hv. clear H Hv Hf.
  apply signature_passes_spec in Hs. destruct Hs as [Hne He].
  destruct (expected_hash_inv _ _ _ He) as (k & m & Hk & Hm & Hh).
  destruct (provided_hash_present _ Hne) as (h & Hg & _ & Hp).
  exists h, k. split; [exact Hg|].
  assert (Hl : py_lower h = hex (HMAC.hmac_sha256 k m)) by congruence.
  split.
  - rewrite <- (py_lower_length h), Hl, hex_length, hmac_length. reflexivity.
  - split.
    + apply py_lower_hex_digit. rewrite Hl. apply hex_lower. apply hmac_octets.
    + split; [exact Hk|].
      unfold derive_secret_key in Hk.
      destruct (encode bot_token) as [t|e]; [|discriminate Hk]. cbn [bind] in Hk.
      assert (E : k = HMAC.hmac_sha256 (lit "WebAppData") t) by congruence.
      rewrite E. split; [apply hmac_length|apply hmac_octets].
Qed.

Lemma accepted_hash_is_64_hex_digits_witness :
  verify_init_data sample_payload sample_token 86400 1000000100
  = Ok {| user := PDict [(lit "id", PInt 42)];
          params := snd (build_data_check_string sample_payload) |}
  /\ exists h secret_key,
       dict_get (snd (build_data_check_string sample_payload)) (lit "hash") = Some h
       /\ length h = 64%nat
       /\ Forall (fun c => is_hex_digit c = true) h
       /\ derive_secret_key sample_token = Ok secret_key
       /\ length secret_key = 32%nat
       /\ Forall is_octet secret_key.
Proof.
  split; [exact sample_payload_verifies|].
  exact (accepted_hash_is_64_hex_digits sample_payload sample_token 86400 1000000100 _
           sample_payload_verifies).
Defined.

(** ** A payload with one more parameter *)

Lemma split_on_not_nil (sep : Z) (s : str) : split_on sep s <> [].
Proof.
  destruct s as [|c r]; simpl; [discriminate|].
  destruct (c =? sep); [discriminate|].
  destruct (split_on sep r); discriminate.
Qed.

(** Splitting at [sep] splits the pieces before it and the pieces after it. *)
Lemma split_on_sep (sep : Z) (a b : str) :
  split_on sep (a ++ sep :: b) = split_on sep a ++ split_on sep b.
Proof.
  induction a as [|c a IH]; simpl.
  - rewrite Z.eqb_refl. reflexivity.
  - destruct (c =? sep); [rewrite IH; reflexivity|].
    rewrite IH. destruct (split_on sep a) as [|p ps] eqn:E.
    + contradiction (split_on_not_nil sep a E).
    + reflexivity.
Qed.

Lemma parse_qsl_amp (a b : str) :
  parse_qsl (a ++ AMP :: b) = parse_qsl a ++ parse_qsl b.
Proof. unfold parse_qsl. rewrite split_on_sep. apply flat_map_app. Qed.

Lemma parse_qsl_signature (init_data x : str) :
  Forall (fun c => c <> AMP) x ->
  parse_qsl (init_data ++ lit "&signature=" ++ x)
  = parse_qsl init_data ++ [(lit "signature", unquote (plus_to_space x))].
Proof.
  intros Hx.
  change (lit "&signature=" ++ x) with (AMP :: (lit "signature" ++ EQUALS :: x)).
  rewrite parse_qsl_amp. f_equal.
  unfold parse_qsl. rewrite split_on_whole.
  - cbn [flat_map]. rewrite app_nil_r.
    change (parse_field (lit "signature" ++ EQUALS :: x))
      with (let (name, value) := partition_at EQUALS (lit "signature" ++ EQUALS :: x) in
            [(unquote (plus_to_space name), unquote (plus_to_space value))]).
    rewrite partition_at_app.
    + reflexivity.
    + repeat (apply Forall_cons; [discriminate|]). apply Forall_nil.
  - apply Forall_app. split; [|apply Forall_cons; [discriminate|exact Hx]].
    repeat (apply Forall_cons; [discriminate|]). apply Forall_nil.
Qed.

Lemma build_with_signature (init_data x : str) :
  Forall (fun c => c <> AMP) x ->
  fst (build_data_check_string (init_data ++ lit "&signature=" ++ x))
  = fst (build_data_check_string init_data)
  /\ forall k,
       dict_get (snd (build_data_check_string (init_data ++ lit "&signature=" ++ x))) k
       = if str_eqb (lit "signature") k then Some (unquote (plus_to_space x))
         else dict_get (snd (build_data_check_string init_data)) k.
Proof.
  intros Hx. unfold build_data_check_string. cbn [fst snd].
  rewrite (parse_qsl_signature _ _ Hx). split.
  - unfold signed_pairs, drop_excluded. rewrite filter_app. cbn [filter fst].
    change (negb (excluded (lit "signature"))) with false. cbv iota.
    rewrite app_nil_r. reflexivity.
  - intros k. rewrite !dict_get_dict_of, lookup_last_app. cbn [lookup_last fst snd].
    destruct (str_eqb (lit "signature") k); reflexivity.
Qed.

(** X7. The [signature] parameter is not covered by the hash: appending
    [&signature=x] to a payload, for any [x], changes neither whether it
    verifies, nor the error, nor the identity returned. The mapping
    returned gains the entry [signature] and is otherwise the same. *)
Theorem signature_parameter_is_not_verified
  (init_data x bot_token : str) (ttl_sec now : Z) :
  Forall (fun c => c <> AMP) x ->
  (forall e,
     verify_init_data init_data bot_token ttl_sec now = Raise e
     <-> verify_init_data (init_data ++ lit "&signature=" ++ x) bot_token ttl_sec now
         = Raise e)
  /\ (forall v,
        verify_init_data init_data bot_token ttl_sec now = Ok v ->
        exists v',
          verify_init_data (init_data ++ lit "&signature=" ++ x) bot_token ttl_sec now
          = Ok v'
          /\ user v' = user v
          /\ dict_get (params v') (lit "signature") = Some (unquote (plus_to_space x))
          /\ forall k, k <> lit "signature" ->
                       dict_get (params v') k = dict_get (params v) k).
Proof.
  intros Hx. destruct (build_with_signature init_data x Hx) as [Hd Hg].
  assert (Hother : forall k, k <> lit "signature" ->
            dict_get (snd (build_data_check_string (init_data ++ lit "&signature=" ++ x))) k
            = dict_get (snd (build_data_check_string init_data)) k).
  { intros k Hk. rewrite Hg.
    destruct (str_eqb (lit "signature") k) eqn:E; [|reflexivity].
    apply str_eqb_eq in E. congruence. }
  assert (Hp : provided_hash (init_data ++ lit "&signature=" ++ x) = provided_hash init_data).
  { unfold provided_hash, get_or. rewrite Hother by discriminate. reflexivity. }
  assert (He : expected_hash (init_data ++ lit "&signature=" ++ x) bot_token
               = expected_hash init_data bot_token).
  { unfold expected_hash. rewrite Hd. reflexivity. }
  assert (Hf : fresh (init_data ++ lit "&signature=" ++ x) ttl_sec now
               = fresh init_data ttl_sec now).
  { unfold fresh, parse_auth_date, get_or. rewrite Hother by discriminate. reflexivity. }
  rewrite !verify_init_data_stages, Hp, He, Hf.
  destruct (is_empty (provided_hash init_data)).
  { split; [intros e; reflexivity|discriminate]. }
  destruct (expected_hash init_data bot_token) as [h|e0]; cbn [bind].
  2:{ split; [intros e; reflexivity|discriminate]. }
  destruct (negb (str_eqb h (provided_hash init_data))).
  { split; [intros e; reflexivity|discriminate]. }
  destruct (negb (fresh init_data ttl_sec now)).
  { split; [intros e; reflexivity|discriminate]. }
  cbv zeta. split; [intros e; split; discriminate|].
  intros v Hv. eexists. split; [reflexivity|].
  apply (f_equal (fun r => match r with Ok y => Some y | Raise _ => None end)) in Hv.
  apply Some_inj in Hv. subst v.
  split; [|split].
  - change (decode_user
              (dict_get (snd (build_data_check_string (init_data ++ lit "&signature=" ++ x)))
                 (lit "user"))
            = decode_user (dict_get (snd (build_data_check_string init_data)) (lit "user"))).
    rewrite Hother by discriminate. reflexivity.
  - change (dict_get (snd (build_data_check_string (init_data ++ lit "&signature=" ++ x)))
              (lit "signature") = Some (unquote (plus_to_space x))).
    rewrite Hg. reflexivity.
  - intros k Hk.
    change (dict_get (snd (build_data_check_string (init_data ++ lit "&signature=" ++ x))) k
            = dict_get (snd (build_data_check_string init_data)) k).
    apply Hother. exact Hk.
Qed.

Lemma signature_parameter_is_not_verified_witness :
  Forall (fun c => c <> AMP) (lit "forged")
  /\ exists v',
       verify_init_data (sample_payload ++ lit "&signature=" ++ lit "forged")
         sample_token 86400 1000000100 = Ok v'
       /\ user v' = PDict [(lit "id", PInt 42)]
       /\ dict_get (params v') (lit "signature") = Some (unquote (plus_to_space (lit "forged")))
       /\ forall k, k <> lit "signature" ->
                    dict_get (params v') k
                    = dict_get (snd (build_data_check_string sample_payload)) k.
Proof.
  assert (H : Forall (fun c => c <> AMP) (lit "forged")).
  { repeat (apply Forall_cons; [discriminate|]). apply Forall_nil. }
  split; [exact H|].
  exact (proj2 (signature_parameter_is_not_verified sample_payload (lit "forged")
                  sample_token 86400 1000000100 H) _ sample_payload_verifies).
Defined.

(** ** The order of the data-check string *)

(** X8. The pairs of the data-check string are the pairs of the payload
    other than [hash] and [signature], sorted by key, those of one key in
    their payload order; and this determines the list: whatever stable sort
    line 49 runs, the string is the same. *)
Theorem data_check_string_is_the_stable_sort (init_data : str) :
  exists pairs,
    fst (build_data_check_string init_data)
    = join [NEWLINE] (List.map render_pair pairs)
    /\ Permutation (drop_excluded (parse_qsl init_data)) pairs
    /\ StronglySorted key_le pairs
    /\ (forall k, with_key k pairs = with_key k (drop_excluded (parse_qsl init_data)))
    /\ (forall kv, In kv pairs -> excluded (fst kv) = false)
    /\ forall l,
         StronglySorted key_le l ->
         (forall k, with_key k l = with_key k (drop_excluded (parse_qsl init_data))) ->
         l = pairs.
Proof.
  exists (signed_pairs (parse_qsl init_data)).
  split; [reflexivity|].
  split; [apply sort_by_key_perm|].
  split; [apply sort_by_key_sorted|].
  split; [intros k; apply with_key_sort|].
  split.
  - intros kv H. apply signed_pairs_In in H. tauto.
  - intros l Hs Hk. apply sorted_stable_unique.
    + exact Hs.
    + apply sort_by_key_sorted.
    + intros k. unfold signed_pairs. rewrite with_key_sort. apply Hk.
Qed.

(** ** The mapping *)

Section Keys.
Variable V : Type.

Lemma dict_set_keys (d : dict V) (k k' : str) (v : V) :
In k (List.map fst (dict_set d k' v)) <-> k = k' \/ In k (List.map fst d).
Proof.
induction d as [|[k0 v0] d IH]; simpl.
- intuition congruence.
- destruct (str_eqb k0 k') eqn:E; simpl.
  + apply str_eqb_eq in E. subst k0. intuition congruence.
  + rewrite IH. intuition congruence.
Qed.

Lemma dict_set_NoDup (d : dict V) (k : str) (v : V) :
NoDup (List.map fst d) -> NoDup (List.map fst (dict_set d k v)).
Proof.
induction d as [|[k0 v0] d IH]; simpl; intros ND.
- constructor; [intros []|constructor].
- inversion ND as [|? ? Hnot ND']; subst.
  destruct (str_eqb k0 k) eqn:E; simpl.
  + constructor; assumption.
  + constructor; [|apply IH; exact ND'].
    rewrite dict_set_keys. intros [H|H]; [|contradiction].
    apply str_eqb_neq in E. congruence.
Qed.

Lemma dict_fold_keys (l : list (str * V)) (d : dict V) (k : str) :
In k (List.map fst (fold_left (fun d kv => dict_set d (fst kv) (snd kv)) l d))
<-> In k (List.map fst d) \/ In k (List.map fst l).
Proof.
revert d; induction l as [|[k0 v0] l IH]; intros d; simpl.
- tauto.
- rewrite IH, dict_set_keys. intuition congruence.
Qed.

Lemma dict_fold_NoDup (l : list (str * V)) (d : dict V) :
NoDup (List.map fst d) ->
NoDup (List.map fst (fold_left (fun d kv => dict_set d (fst kv) (snd kv)) l d)).
Proof.
revert d; induction l as [|[k0 v0] l IH]; intros d ND; simpl.
- exact ND.
- apply IH. apply dict_set_NoDup. exact ND.
Qed.

Lemma lookup_last_absent (l : list (str * V)) (k : str) :
~ In k (List.map fst l) -> lookup_last l k = None.
Proof.
intros H. destruct (lookup_last l k) as [v|] eqn:E; [|reflexivity].
apply lookup_last_In in E. contradiction H.
apply (in_map fst) in E. exact E.
Qed.

End Keys.

(** X9. The mapping built from a payload has every key of the payload once,
    with the value of its last occurrence; a key that does not occur in the
    payload has no entry. This holds for [hash], [auth_date] and [user]
    too, which [verify_init_data] reads from the mapping. *)
Theorem mapping_keeps_last_occurrence (init_data : str) :
  let params := snd (build_data_check_string init_data) in
  NoDup (List.map fst params)
  /\ (forall k, In k (List.map fst params) <-> In k (List.map fst (parse_qsl init_data)))
  /\ (forall k, ~ In k (List.map fst (parse_qsl init_data)) -> dict_get params k = None)
  /\ (forall k v l1 l2,
        parse_qsl init_data = l1 ++ (k, v) :: l2 ->
        ~ In k (List.map fst l2) ->
        dict_get params k = Some v).
Proof.
  cbv zeta. unfold build_data_check_string. cbn [snd].
  split; [|split; [|split]].
  - unfold dict_of. apply dict_fold_NoDup. constructor.
  - intros k. unfold dict_of. rewrite dict_fold_keys. simpl. tauto.
  - intros k H. rewrite dict_get_dict_of. apply lookup_last_absent. exact H.
  - intros k v l1 l2 E H. rewrite dict_get_dict_of, E, lookup_last_app.
    cbn [lookup_last fst snd]. rewrite (lookup_last_absent _ _ _ H), str_eqb_refl.
    reflexivity.
Qed.

(** ** What [make_jwt] returns *)

Lemma make_jwt_object (d : dict pyval) (secret : str) (now : Z) :
  d <> [] ->
  make_jwt (PDict d) secret now
  = (joined <- join_names (get_default d (lit "first_name") (PStr []))
                          (get_default d (lit "last_name") (PStr [])) ;;
     Ok {| payload := {| sub := py_str (get_default d (lit "id") PNone);
                         name := py_strip joined;
                         iat := now;
                         exp := now + session_lifetime;
                         tg_id := get_default d (lit "id") PNone;
                         tg_username := get_default d (lit "username") PNone |};
           signing_key := secret |}).
Proof.
  intros Hd. unfold make_jwt.
  assert (Ht : truthy (PDict d) = true) by (destruct d; [contradiction|reflexivity]).
  rewrite Ht, !py_get_dict. cbn [bind].
  destruct (join_names _ _); reflexivity.
Qed.

Lemma join_names_strings (d : dict pyval) :
  names_are_strings d = true ->
  exists s, join_names (get_default d (lit "first_name") (PStr []))
                       (get_default d (lit "last_name") (PStr [])) = Ok s.
Proof.
  unfold names_are_strings, join_names.
  destruct (get_default d (lit "first_name") (PStr [])); try discriminate.
  destruct (get_default d (lit "last_name") (PStr [])); try discriminate.
  intros _. eexists. reflexivity.
Qed.

Lemma join_names_not_strings (d : dict pyval) :
  names_are_strings d = false ->
  join_names (get_default d (lit "first_name") (PStr []))
             (get_default d (lit "last_name") (PStr [])) = Raise TypeError.
Proof.
  unfold names_are_strings, join_names.
  destruct (get_default d (lit "first_name") (PStr []));
    destruct (get_default d (lit "last_name") (PStr [])); try discriminate; reflexivity.
Qed.

(** The three ways [make_jwt] ends, by the value it is given. *)
Lemma make_jwt_cases (user : pyval) (secret : str) (now : Z) :
  (truthy user = false /\ exists t, make_jwt user secret now = Ok t)
  \/ (truthy user = true /\ is_object user = false
      /\ make_jwt user secret now = Raise AttributeError)
  \/ (exists d, user = PDict d /\ d <> [] /\ names_are_strings d = true
      /\ exists t, make_jwt user secret now = Ok t)
  \/ (exists d, user = PDict d /\ d <> [] /\ names_are_strings d = false
      /\ make_jwt user secret now = Raise TypeError).
Proof.
  destruct (truthy user) eqn:Ht.
  - right. destruct (is_object user) eqn:Ho.
    + right. destruct user as [| | | | |l|d]; try discriminate Ho.
      assert (Hd : d <> []) by (intros ->; discriminate Ht).
      destruct (names_are_strings d) eqn:Hn.
      * left. exists d. repeat (split; [assumption || reflexivity|]).
        rewrite (make_jwt_object _ _ _ Hd).
        destruct (join_names_strings _ Hn) as [s Hs]. rewrite Hs.
        eexists. reflexivity.
      * right. exists d. repeat (split; [assumption || reflexivity|]).
        rewrite (make_jwt_object _ _ _ Hd), (join_names_not_strings _ Hn). reflexivity.
    + left. repeat (split; [reflexivity|]). apply make_jwt_not_object; assumption.
  - left. split; [reflexivity|]. rewrite (make_jwt_falsy _ _ _ Ht). eexists. reflexivity.
Qed.


Lemma make_jwt_ok_inv (user : pyval) (secret : str) (now : Z) (t : jwt) :
  make_jwt user secret now = Ok t ->
  iat (payload t) = now /\ exp (payload t) = now + session_lifetime
  /\ signing_key t = secret
  /\ (truthy user = true -> is_object user = true).
Proof.
  intros H.
  destruct (make_jwt_cases user secret now)
    as [(Ht & _)|[(Ht & Ho & E)|[(d & -> & Hd & Hn & _)|(d & -> & Hd & Hn & E)]]];
    try congruence.
  - rewrite (make_jwt_falsy _ _ _ Ht) in H.
    apply (f_equal (fun r => match r with Ok y => Some y | Raise _ => None end)) in H.
    apply Some_inj in H. subst t. repeat split. congruence.
  - rewrite (make_jwt_object _ _ _ Hd) in H.
    destruct (join_names_strings _ Hn) as [s Hs]. rewrite Hs in H. cbn [bind] in H.
    apply (f_equal (fun r => match r with Ok y => Some y | Raise _ => None end)) in H.
    apply Some_inj in H. subst t. repeat split.
Qed.

(** ** The replies of the handler *)

(** The two places a reply comes from. *)
Lemma auth_telegram_ok_inv (cfg : config) (data : AuthIn) (now_verify now_issue : Z)
    (r : reply) :
  auth_telegram cfg data now_verify now_issue = Ok r ->
  exists u token,
    make_jwt u (SESSION_SECRET cfg) now_issue = Ok token
    /\ r = {| set_cookie := session_cookie cfg token; ok := true; reply_user := u |}
    /\ (u = guest
        \/ exists v, verify_init_data (match initData data with Some s => s | None => [] end)
                       (BOT_TOKEN cfg) (INITDATA_TTL_SEC cfg) now_verify = Ok v
                     /\ u = (if truthy (user v) then user v else PDict [])).
Proof.
  unfold auth_telegram.
  destruct (no_init data && DEV_ALLOW_ANON cfg).
  - destruct (make_jwt guest (SESSION_SECRET cfg) now_issue) as [token|e] eqn:E;
      cbn [bind]; [|discriminate].
    intros H. exists guest, token. split; [exact E|]. split; [congruence|].
    left. reflexivity.
  - destruct (no_init data); [discriminate|].
    destruct (is_empty (BOT_TOKEN cfg)); [discriminate|].
    destruct (verify_init_data _ _ _ _) as [v|e]; cbn [bind]; [|discriminate].
    destruct (make_jwt _ (SESSION_SECRET cfg) now_issue) as [token|e] eqn:E;
      cbn [bind]; [|discriminate].
    intros H. eexists. exists token. split; [exact E|]. split; [congruence|].
    right. exists v. split; reflexivity.
Qed.

(** X11. Every reply of the handler, on the guest path or after a
    verification, sets the cookie [sid], [HttpOnly], for the path [/], with
    a lifetime of 2592000 seconds. The token in it is signed with
    [SESSION_SECRET], issued at the time of the call and expires exactly
    when the cookie does. [Secure] follows [SECURE_COOKIES] and [SameSite]
    is [none] with it and [lax] without. The user of the reply is always a
    JSON object. *)
Theorem reply_invariants (cfg : config) (data : AuthIn) (now_verify now_issue : Z)
    (r : reply) :
  auth_telegram cfg data now_verify now_issue = Ok r ->
  ok r = true
  /\ key (set_cookie r) = lit "sid"
  /\ httponly (set_cookie r) = true
  /\ path (set_cookie r) = lit "/"
  /\ max_age (set_cookie r) = 2592000
  /\ secure (set_cookie r) = SECURE_COOKIES cfg
  /\ samesite (set_cookie r) = (if SECURE_COOKIES cfg then lit "none" else lit "lax")
  /\ signing_key (value (set_cookie r)) = SESSION_SECRET cfg
  /\ iat (payload (value (set_cookie r))) = now_issue
  /\ exp (payload (value (set_cookie r))) = now_issue + max_age (set_cookie r)
  /\ is_object (reply_user r) = true.
Proof.
  intros H. destruct (auth_telegram_ok_inv _ _ _ _ _ H) as (u & token & Hj & -> & Hu).
  destruct (make_jwt_ok_inv _ _ _ _ Hj) as (Hi & He & Hk & Ho).
  cbn. repeat (split; [first [reflexivity | assumption]|]).
  split; [destruct (SECURE_COOKIES cfg); reflexivity|].
  repeat (split; [first [reflexivity | assumption]|]).
  destruct Hu as [->|(v & _ & ->)]; [reflexivity|].
  destruct (truthy (user v)) eqn:Ht; [|reflexivity].
  apply Ho. rewrite Ht. reflexivity.
Qed.

Lemma reply_invariants_witness :
  auth_telegram sample_guest_config {| initData := None |} 0 1000000100
  = Ok {| set_cookie := session_cookie sample_guest_config (guest_token (lit "dev") 1000000100);
          ok := true; reply_user := guest |}
  /\ max_age (session_cookie sample_guest_config (guest_token (lit "dev") 1000000100))
     = 2592000
  /\ exp (payload (guest_token (lit "dev") 1000000100)) = 1000000100 + 2592000.
Proof.
  assert (H : auth_telegram sample_guest_config {| initData := None |} 0 1000000100
              = Ok {| set_cookie := session_cookie sample_guest_config
                                      (guest_token (lit "dev") 1000000100);
                      ok := true; reply_user := guest |})
    by (vm_compute; reflexivity).
  split; [exact H|].
  pose proof (reply_invariants sample_guest_config {| initData := None |} 0 1000000100 _ H)
    as (_ & _ & _ & _ & Hm & _ & _ & _ & _ & He & _).
  split; [exact Hm|exact He].
Defined.

Lemma verify_empty (bot_token : str) (ttl_sec now : Z) :
  verify_init_data [] bot_token ttl_sec now = Raise no_hash.
Proof. rewrite verify_init_data_stages. reflexivity. Qed.

Lemma auth_telegram_verified (cfg : config) (data : AuthIn) (now_verify now_issue : Z)
    (init_data : str) (v : verified_data) :
  initData data = Some init_data ->
  is_empty (BOT_TOKEN cfg) = false ->
  verify_init_data init_data (BOT_TOKEN cfg) (INITDATA_TTL_SEC cfg) now_verify = Ok v ->
  auth_telegram cfg data now_verify now_issue
  = (let u := if truthy (user v) then user v else PDict [] in
     token <- make_jwt u (SESSION_SECRET cfg) now_issue ;;
     Ok {| set_cookie := session_cookie cfg token; ok := true; reply_user := u |}).
Proof.
  intros Hd Hb Hv. unfold auth_telegram, no_init. rewrite Hd.
  destruct init_data as [|c s]; [rewrite verify_empty in Hv; discriminate Hv|].
  cbn [andb]. rewrite Hb, Hv. reflexivity.
Qed.



(** X13. The names of a verified identity are not checked either: for a
    signed and fresh payload whose [user] is a non-empty object with a
    [first_name] or [last_name] that is not a string (null, a number), the
    handler raises [TypeError] and sets no cookie. *)
Theorem verified_name_not_a_string_raises
    (cfg : config) (data : AuthIn) (now_verify now_issue : Z)
    (init_data : str) (v : verified_data) (d : dict pyval) :
  initData data = Some init_data ->
  is_empty (BOT_TOKEN cfg) = false ->
  verify_init_data init_data (BOT_TOKEN cfg) (INITDATA_TTL_SEC cfg) now_verify = Ok v ->
  user v = PDict d -> d <> [] ->
  names_are_strings d = false ->
  auth_telegram cfg data now_verify now_issue = Raise TypeError.
Proof.
  intros Hd Hb Hv Hu Hne Hn. rewrite (auth_telegram_verified _ _ _ now_issue _ _ Hd Hb Hv).
  rewrite Hu. assert (Ht : truthy (PDict d) = true) by (destruct d; [contradiction|reflexivity]).
  rewrite Ht. cbv zeta.
  rewrite (make_jwt_object _ _ _ Hne), (join_names_not_strings _ Hn). reflexivity.
Qed.

Lemma verified_name_not_a_string_raises_witness :
  verify_init_data sample_null_name sample_token 86400 1000000100
  = Ok {| user := PDict [(lit "id", PInt 1); (lit "first_name", PNone)];
          params := snd (build_data_check_string sample_null_name) |}
  /\ auth_telegram sample_config {| initData := Some sample_null_name |} 1000000100 1000000200
     = Raise TypeError.
Proof.
  assert (H : verify_init_data sample_null_name sample_token 86400 1000000100
              = Ok {| user := PDict [(lit "id", PInt 1); (lit "first_name", PNone)];
                      params := snd (build_data_check_string sample_null_name) |})
    by (vm_compute; reflexivity).
  split; [exact H|].
  apply (verified_name_not_a_string_raises sample_config
           {| initData := Some sample_null_name |} 1000000100 1000000200
           sample_null_name _ [(lit "id", PInt 1); (lit "first_name", PNone)]
           eq_refl eq_refl H eq_refl).
  - discriminate.
  - reflexivity.
Defined.

(** ** The configuration *)

Lemma getenv_or_unset (env : environ) (name default : str) :
  env name = None \/ env name = Some [] -> getenv_or env name default = default.
Proof. unfold getenv_or. intros [H|H]; rewrite H; reflexivity. Qed.

Lemma getenv_or_not_empty (env : environ) (name default : str) :
  default <> [] -> getenv_or env name default <> [].
Proof.
  intros H. unfold getenv_or. destruct (env name) as [[|c s]|]; try exact H. discriminate.
Qed.


Lemma load_config_inv (env : environ) (cfg : config) :
  load_config env = Some cfg ->
  BOT_TOKEN cfg = getenv_or env (lit "BOT_TOKEN") []
  /\ SESSION_SECRET cfg = getenv_or env (lit "SESSION_SECRET") (lit "dev")
  /\ py_int (getenv_or env (lit "INITDATA_TTL_SEC") (lit "86400"))
     = Some (INITDATA_TTL_SEC cfg)
  /\ DEV_ALLOW_ANON cfg = getenv_is env (lit "DEV_ALLOW_ANON") (lit "1")
  /\ SECURE_COOKIES cfg = getenv_is env (lit "SECURE_COOKIES") (lit "1").
Proof.
  unfold load_config.
  destruct (py_int (getenv_or env (lit "INITDATA_TTL_SEC") (lit "86400"))) as [ttl|];
    [|discriminate].
  intros H. apply Some_inj in H. subst cfg. repeat split.
Qed.

(** X14. With [BOT_TOKEN] unset or empty in the environment, every request
    that carries a payload fails with the status 500 and
    [bot_token_not_configured], before any verification: whatever the
    payload, the other settings and the time. *)
Theorem unset_bot_token_refuses_every_payload
    (env : environ) (cfg : config) (data : AuthIn) (now_verify now_issue : Z) :
  load_config env = Some cfg ->
  env (lit "BOT_TOKEN") = None \/ env (lit "BOT_TOKEN") = Some [] ->
  no_init data = false ->
  auth_telegram cfg data now_verify now_issue = Raise bot_token_not_configured.
Proof.
  intros Hc He Hd. destruct (load_config_inv _ _ Hc) as (Hb & _).
  rewrite (getenv_or_unset _ _ _ He) in Hb.
  unfold auth_telegram. rewrite Hd, Hb. reflexivity.
Qed.

Lemma unset_bot_token_refuses_every_payload_witness :
  load_config (env_with_anon (lit "1"))
  = Some {| BOT_TOKEN := []; SESSION_SECRET := lit "dev"; INITDATA_TTL_SEC := 86400;
            DEV_ALLOW_ANON := true; SECURE_COOKIES := false |}
  /\ auth_telegram {| BOT_TOKEN := []; SESSION_SECRET := lit "dev"; INITDATA_TTL_SEC := 86400;
                      DEV_ALLOW_ANON := true; SECURE_COOKIES := false |}
       {| initData := Some sample_payload |} 1000000100 1000000100
     = Raise bot_token_not_configured.
Proof.
  assert (H : load_config (env_with_anon (lit "1"))
              = Some {| BOT_TOKEN := []; SESSION_SECRET := lit "dev";
                        INITDATA_TTL_SEC := 86400;
                        DEV_ALLOW_ANON := true; SECURE_COOKIES := false |})
    by (vm_compute; reflexivity).
  split; [exact H|].
  exact (unset_bot_token_refuses_every_payload (env_with_anon (lit "1")) _
           {| initData := Some sample_payload |} 1000000100 1000000100
           H (or_introl eq_refl) eq_refl).
Defined.



(** X16. The signing key is never empty: every token the handler issues is
    signed with [SESSION_SECRET] of the environment, and with the fixed key
    [dev] when that variable is unset or empty. *)
Theorem session_key_defaults_to_dev
    (env : environ) (cfg : config) (data : AuthIn) (now_verify now_issue : Z)
    (r : reply) :
  load_config env = Some cfg ->
  auth_telegram cfg data now_verify now_issue = Ok r ->
  signing_key (value (set_cookie r)) <> []
  /\ (env (lit "SESSION_SECRET") = None \/ env (lit "SESSION_SECRET") = Some [] ->
      signing_key (value (set_cookie r)) = lit "dev")
  /\ (forall c s, env (lit "SESSION_SECRET") = Some (c :: s) ->
      signing_key (value (set_cookie r)) = c :: s).
Proof.
  intros Hc H. destruct (load_config_inv _ _ Hc) as (_ & Hs & _).
  destruct (auth_telegram_ok_inv _ _ _ _ _ H) as (u & token & Hj & -> & _).
  destruct (make_jwt_ok_inv _ _ _ _ Hj) as (_ & _ & Hk & _).
  assert (Hr : signing_key (value (set_cookie
                  {| set_cookie := session_cookie cfg token; ok := true; reply_user := u |}))
               = getenv_or env (lit "SESSION_SECRET") (lit "dev"))
    by (rewrite <- Hs; exact Hk).
  rewrite Hr. split; [|split].
  - apply getenv_or_not_empty. discriminate.
  - apply getenv_or_unset.
  - intros c s E. unfold getenv_or. rewrite E. reflexivity.
Qed.

Lemma session_key_defaults_to_dev_witness :
  load_config (env_with_anon (lit "1"))
  = Some {| BOT_TOKEN := []; SESSION_SECRET := lit "dev"; INITDATA_TTL_SEC := 86400;
            DEV_ALLOW_ANON := true; SECURE_COOKIES := false |}
  /\ signing_key (guest_token (lit "dev") 1000000100) = lit "dev".
Proof.
  assert (H : load_config (env_with_anon (lit "1"))
              = Some {| BOT_TOKEN := []; SESSION_SECRET := lit "dev";
                        INITDATA_TTL_SEC := 86400;
                        DEV_ALLOW_ANON := true; SECURE_COOKIES := false |})
    by (vm_compute; reflexivity).
  assert (A : auth_telegram {| BOT_TOKEN := []; SESSION_SECRET := lit "dev";
                              INITDATA_TTL_SEC := 86400;
                              DEV_ALLOW_ANON := true; SECURE_COOKIES := false |}
                {| initData := None |} 0 1000000100
              = Ok {| set_cookie :=
                        session_cookie {| BOT_TOKEN := []; SESSION_SECRET := lit "dev";
                                          INITDATA_TTL_SEC := 86400;
                                          DEV_ALLOW_ANON := true; SECURE_COOKIES := false |}
                          (guest_token (lit "dev") 1000000100);
                      ok := true; reply_user := guest |})
    by (vm_compute; reflexivity).
  split; [exact H|].
  exact (proj1 (proj2 (session_key_defaults_to_dev (env_with_anon (lit "1")) _
                         {| initData := None |} 0 1000000100 _ H A))
           (or_introl eq_refl)).
Defined.

(** ** [allowed_origins] *)

Lemma drop_while_nil (p : Z -> bool) (s : str) :
  drop_while p s = [] <-> Forall (fun c => p c = true) s.
Proof.
  induction s as [|c s IH]; simpl.
  - split; [constructor|reflexivity].
  - destruct (p c) eqn:E.
    + rewrite IH. split; [intros H; constructor; assumption|].
      intros H; inversion H; assumption.
    + split; [discriminate|]. intros H; inversion H; congruence.
Qed.

Lemma drop_while_suffix (p : Z -> bool) (s : str) :
  exists pre, s = pre ++ drop_while p s /\ Forall (fun c => p c = true) pre.
Proof.
  induction s as [|c s (pre & E & F)]; simpl.
  - exists []. split; [reflexivity|constructor].
  - destruct (p c) eqn:Ec.
    + exists (c :: pre). split; [simpl; congruence|constructor; assumption].
    + exists []. split; [reflexivity|constructor].
Qed.

Lemma drop_while_begins_well (p : Z -> bool) (s : str) : begins_well p (drop_while p s).
Proof.
  induction s as [|c s IH]; simpl; [exact I|].
  destruct (p c) eqn:E; [exact IH|exact E].
Qed.

Lemma drop_while_fixed (p : Z -> bool) (s : str) :
  begins_well p s -> drop_while p s = s.
Proof. destruct s as [|c s]; simpl; [reflexivity|]. intros ->. reflexivity. Qed.

Lemma begins_well_app (p : Z -> bool) (a b : str) :
  a <> [] -> begins_well p (a ++ b) -> begins_well p a.
Proof. destruct a as [|c a]; [contradiction|]. intros _ H. exact H. Qed.

Lemma begins_well_app_l (p : Z -> bool) (a b : str) :
  begins_well p a -> a <> [] -> begins_well p (a ++ b).
Proof. destruct a as [|c a]; [contradiction|]. intros H _. exact H. Qed.

(** What [strip] leaves begins and ends with a character that is not white
    space. *)
Lemma py_strip_ends (s : str) :
  begins_well is_space (py_strip s) /\ begins_well is_space (rev (py_strip s)).
Proof.
  unfold py_strip. rewrite rev_involutive.
  split; [|apply drop_while_begins_well].
  destruct (drop_while_suffix is_space (rev (drop_while is_space s))) as (pre & E & _).
  remember (drop_while is_space (rev (drop_while is_space s))) as u eqn:Hu.
  destruct u as [|c u]; [exact I|].
  apply (begins_well_app is_space (rev (c :: u)) (rev pre)).
  - intros H. apply (f_equal (@length Z)) in H. rewrite length_rev in H. discriminate H.
  - rewrite <- rev_app_distr, <- E, rev_involutive. apply drop_while_begins_well.
Qed.

Lemma py_strip_idempotent (s : str) : py_strip (py_strip s) = py_strip s.
Proof.
  destruct (py_strip_ends s) as [H1 H2].
  unfold py_strip at 1. rewrite (drop_while_fixed _ _ H1), (drop_while_fixed _ _ H2).
  apply rev_involutive.
Qed.

Lemma py_strip_nil (s : str) :
  py_strip s = [] <-> Forall (fun c => is_space c = true) s.
Proof.
  unfold py_strip. split.
  - intros H. apply (f_equal (@rev Z)) in H. rewrite rev_involutive in H. simpl in H.
    apply drop_while_nil in H. apply Forall_rev in H. rewrite rev_involutive in H.
    destruct (drop_while_suffix is_space s) as (pre & E & F).
    rewrite E. apply Forall_app. split; assumption.
  - intros H. apply drop_while_nil in H. rewrite H. reflexivity.
Qed.

Lemma py_strip_incl (s : str) (c : Z) : In c (py_strip s) -> In c s.
Proof.
  unfold py_strip. intros H. apply in_rev in H.
  destruct (drop_while_suffix is_space (rev (drop_while is_space s))) as (pre & E & _).
  assert (H1 : In c (rev (drop_while is_space s))) by (rewrite E; apply in_or_app; right; exact H).
  apply in_rev in H1.
  destruct (drop_while_suffix is_space s) as (pre' & E' & _).
  rewrite E'. apply in_or_app. right. exact H1.
Qed.

Lemma split_on_pieces (sep : Z) (s : str) :
  Forall (fun piece => ~ In sep piece /\ forall c, In c piece -> In c s) (split_on sep s).
Proof.
  induction s as [|c s IH]; simpl.
  - constructor; [|constructor]. split; [intros []|intros c []].
  - destruct (Z.eqb_spec c sep) as [->|Hc].
    + constructor; [split; [intros []|intros c []]|].
      eapply Forall_impl; [|exact IH]. intros piece [H1 H2].
      split; [exact H1|]. intros c Hin. right. apply H2. exact Hin.
    + destruct (split_on sep s) as [|p ps]; [constructor; [|constructor]|].
      * split; [intros [H|[]]; congruence|]. intros x [H|[]]. left. exact H.
      * inversion IH as [|? ? [H1 H2] Hps]; subst. constructor.
        -- split; [intros [H|H]; [congruence|contradiction]|].
           intros x [H|H]; [left; exact H|right; apply H2; exact H].
        -- eapply Forall_impl; [|exact Hps]. intros piece [H3 H4].
           split; [exact H3|]. intros x Hin. right. apply H4. exact Hin.
Qed.

Lemma split_on_covers (sep : Z) (s : str) (c : Z) :
  In c s -> c <> sep -> Exists (In c) (split_on sep s).
Proof.
  induction s as [|a s IH]; simpl; [intros []|].
  intros Hin Hc. destruct (Z.eqb_spec a sep) as [->|Ha].
  - destruct Hin as [H|H]; [congruence|]. apply Exists_cons_tl. apply IH; assumption.
  - destruct (split_on sep s) as [|p ps] eqn:E.
    + contradiction (split_on_not_nil sep s E).
    + destruct Hin as [H|H].
      * apply Exists_cons_hd. left. exact H.
      * specialize (IH H Hc). inversion IH as [? ? Hp|? ? Hps]; subst.
        -- apply Exists_cons_hd. right. exact Hp.
        -- apply Exists_cons_tl. exact Hps.
Qed.

Lemma is_empty_true (s : str) : is_empty s = true <-> s = [].
Proof. destruct s; simpl; split; congruence. Qed.

(** X17. Every origin of [allowed_origins] is a non-empty string without
    white space at either end and without a comma, and holds only
    characters of the variable [CORS_ALLOWED_ORIGINS]. *)
Theorem allowed_origins_are_trimmed (env : environ) :
  Forall (fun o => o <> [] /\ py_strip o = o /\ ~ In COMMA o
                   /\ forall c, In c o ->
                        In c (getenv_or env (lit "CORS_ALLOWED_ORIGINS") []))
         (allowed_origins env).
Proof.
  unfold allowed_origins. apply Forall_forall. intros o Ho.
  apply in_map_iff in Ho. destruct Ho as (piece & <- & Hp).
  apply filter_In in Hp. destruct Hp as [Hin Hne].
  pose proof (split_on_pieces COMMA (getenv_or env (lit "CORS_ALLOWED_ORIGINS") [])) as F.
  rewrite Forall_forall in F. destruct (F _ Hin) as [Hc Hs].
  split; [|split; [|split]].
  - intros E. apply is_empty_true in E. rewrite E in Hne. discriminate Hne.
  - apply py_strip_idempotent.
  - intros H. apply Hc. apply py_strip_incl. exact H.
  - intros c H. apply Hs. apply py_strip_incl. exact H.
Qed.

(** X18. CORS is open to every origin exactly when the variable names no
    origin: when [CORS_ALLOWED_ORIGINS] is unset, empty or made of commas and
    white space only, the list given to the middleware is [*]; as soon as it
    holds one other character, the list is [allowed_origins], not empty. *)
Theorem cors_wildcard_when_no_origin (env : environ) :
  (Forall (fun c => c = COMMA \/ is_space c = true)
          (getenv_or env (lit "CORS_ALLOWED_ORIGINS") [])
   -> allowed_origins env = [] /\ cors_allow_origins env = [lit "*"])
  /\ (Exists (fun c => c <> COMMA /\ is_space c = false)
             (getenv_or env (lit "CORS_ALLOWED_ORIGINS") [])
      -> allowed_origins env <> [] /\ cors_allow_origins env = allowed_origins env).
Proof.
  split.
  - intros H.
    assert (E : allowed_origins env = []).
    { unfold allowed_origins.
      pose proof (split_on_pieces COMMA (getenv_or env (lit "CORS_ALLOWED_ORIGINS") [])) as F.
      induction F as [|piece ps [Hc Hs] F IH]; [reflexivity|].
      cbn [filter]. replace (is_empty (py_strip piece)) with true; [exact IH|].
      symmetry. apply is_empty_true. apply py_strip_nil.
      apply Forall_forall. intros c Hin.
      rewrite Forall_forall in H. destruct (H c (Hs c Hin)) as [->|Hsp]; [contradiction|exact Hsp]. }
    split; [exact E|]. unfold cors_allow_origins. rewrite E. reflexivity.
  - intros H. apply Exists_exists in H. destruct H as (c & Hin & Hc & Hsp).
    assert (E : allowed_origins env <> []).
    { unfold allowed_origins.
      pose proof (split_on_covers COMMA _ c Hin Hc) as X.
      apply Exists_exists in X. destruct X as (piece & Hp & Hcp).
      assert (Hf : In piece (filter (fun o => negb (is_empty (py_strip o)))
                               (split_on COMMA (getenv_or env (lit "CORS_ALLOWED_ORIGINS") [])))).
      { apply filter_In. split; [exact Hp|].
        destruct (is_empty (py_strip piece)) eqn:Ee; [|reflexivity].
        apply is_empty_true in Ee. apply py_strip_nil in Ee.
        rewrite Forall_forall in Ee. rewrite (Ee c Hcp) in Hsp. discriminate Hsp. }
      intros Hnil. apply (in_map py_strip) in Hf. rewrite Hnil in Hf. exact Hf. }
    split; [exact E|]. unfold cors_allow_origins.
    destruct (allowed_origins env); [contradiction|reflexivity].
Qed.

Lemma cors_wildcard_when_no_origin_witness :
  Forall (fun c => c = COMMA \/ is_space c = true) (lit " , ,")
  /\ cors_allow_origins (env_with_origins (lit " , ,")) = [lit "*"].
Proof.
  assert (H : Forall (fun c => c = COMMA \/ is_space c = true)
                (getenv_or (env_with_origins (lit " , ,")) (lit "CORS_ALLOWED_ORIGINS") [])).
  { repeat (apply Forall_cons; [first [left; reflexivity | right; reflexivity]|]).
    apply Forall_nil. }
  split; [exact H|].
  exact (proj2 (proj1 (cors_wildcard_when_no_origin (env_with_origins (lit " , ,"))) H)).
Defined.

(** ** [debug_env] *)



(** X20. [debug_env] shows neither secret: two environments that differ in
    the values of [BOT_TOKEN] and [SESSION_SECRET] only, with a bot token
    set in both or in neither, get the same answer. *)
Theorem debug_env_hides_the_secrets (env env' : environ) (cfg cfg' : config) :
  (forall name, name <> lit "BOT_TOKEN" -> name <> lit "SESSION_SECRET" ->
                env name = env' name) ->
  is_empty (getenv_or env (lit "BOT_TOKEN") [])
  = is_empty (getenv_or env' (lit "BOT_TOKEN") []) ->
  load_config env = Some cfg ->
  load_config env' = Some cfg' ->
  debug_env cfg (allowed_origins env) = debug_env cfg' (allowed_origins env').
Proof.
  intros Hn Hb Hc Hc'.
  destruct (load_config_inv _ _ Hc) as (B & _ & T & A & S).
  destruct (load_config_inv _ _ Hc') as (B' & _ & T' & A' & S').
  assert (Et : INITDATA_TTL_SEC cfg = INITDATA_TTL_SEC cfg').
  { unfold getenv_or in T, T'. rewrite (Hn (lit "INITDATA_TTL_SEC")) in T by discriminate.
    congruence. }
  assert (Ea : DEV_ALLOW_ANON cfg = DEV_ALLOW_ANON cfg').
  { rewrite A, A'. unfold getenv_is. rewrite (Hn (lit "DEV_ALLOW_ANON")) by discriminate.
    reflexivity. }
  assert (Es : SECURE_COOKIES cfg = SECURE_COOKIES cfg').
  { rewrite S, S'. unfold getenv_is. rewrite (Hn (lit "SECURE_COOKIES")) by discriminate.
    reflexivity. }
  assert (Eo : allowed_origins env = allowed_origins env').
  { unfold allowed_origins, getenv_or.
    rewrite (Hn (lit "CORS_ALLOWED_ORIGINS")) by discriminate. reflexivity. }
  unfold debug_env. rewrite Et, Ea, Es, Eo, B, B', Hb. reflexivity.
Qed.

Lemma debug_env_hides_the_secrets_witness :
  load_config (env_with_token (lit "123:abc"))
  = Some {| BOT_TOKEN := lit "123:abc"; SESSION_SECRET := lit "dev";
            INITDATA_TTL_SEC := 86400; DEV_ALLOW_ANON := false; SECURE_COOKIES := false |}
  /\ load_config (env_with_token (lit "456:xyz"))
     = Some {| BOT_TOKEN := lit "456:xyz"; SESSION_SECRET := lit "dev";
               INITDATA_TTL_SEC := 86400; DEV_ALLOW_ANON := false; SECURE_COOKIES := false |}
  /\ debug_env {| BOT_TOKEN := lit "123:abc"; SESSION_SECRET := lit "dev";
                  INITDATA_TTL_SEC := 86400; DEV_ALLOW_ANON := false;
                  SECURE_COOKIES := false |}
       (allowed_origins (env_with_token (lit "123:abc")))
     = debug_env {| BOT_TOKEN := lit "456:xyz"; SESSION_SECRET := lit "dev";
                    INITDATA_TTL_SEC := 86400; DEV_ALLOW_ANON := false;
                    SECURE_COOKIES := false |}
         (allowed_origins (env_with_token (lit "456:xyz"))).
Proof.
  assert (H1 : load_config (env_with_token (lit "123:abc"))
               = Some {| BOT_TOKEN := lit "123:abc"; SESSION_SECRET := lit "dev";
                         INITDATA_TTL_SEC := 86400; DEV_ALLOW_ANON := false;
                         SECURE_COOKIES := false |}) by (vm_compute; reflexivity).
  assert (H2 : load_config (env_with_token (lit "456:xyz"))
               = Some {| BOT_TOKEN := lit "456:xyz"; SESSION_SECRET := lit "dev";
                         INITDATA_TTL_SEC := 86400; DEV_ALLOW_ANON := false;
                         SECURE_COOKIES := false |}) by (vm_compute; reflexivity).
  split; [exact H1|]. split; [exact H2|].
  apply (debug_env_hides_the_secrets (env_with_token (lit "123:abc"))
           (env_with_token (lit "456:xyz")) _ _).
  - intros name Hb _. unfold env_with_token.
    destruct (str_eqb name (lit "BOT_TOKEN")) eqn:E; [|reflexivity].
    apply str_eqb_eq in E. contradiction.
  - reflexivity.
  - exact H1.
  - exact H2.
Defined.

(** ** [b64url] *)

Lemma rstrip_cons (c a : Z) (s : bytes) :
  a <> c -> rstrip c (a :: s) = a :: rstrip c s.
Proof.
  intros H. cbn [rstrip]. destruct (rstrip c s); [|reflexivity].
  apply Z.eqb_neq in H. rewrite H. reflexivity.
Qed.

Lemma char_base64url (n : Z) :
  0 <= n < 64 -> is_base64url_char (Base64.char n) = true /\ Base64.char n <> Base64.PAD.
Proof.
  intros H. unfold Base64.char, Base64.PAD, is_base64url_char, in_range.
  destruct (Z.ltb_spec n 26); [split; [tests_to_Z|]; lia|].
  destruct (Z.ltb_spec n 52); [split; [tests_to_Z|]; lia|].
  destruct (Z.ltb_spec n 62); [split; [tests_to_Z|]; lia|].
  destruct (Z.eqb_spec n 62); split; try reflexivity; discriminate.
Qed.

Lemma char_injective (m n : Z) :
  0 <= m < 64 -> 0 <= n < 64 -> Base64.char m = Base64.char n -> m = n.
Proof.
  intros Hm Hn. unfold Base64.char.
  destruct (Z.ltb_spec m 26); destruct (Z.ltb_spec n 26);
    destruct (Z.ltb_spec m 52); destruct (Z.ltb_spec n 52);
    destruct (Z.ltb_spec m 62); destruct (Z.ltb_spec n 62);
    destruct (Z.eqb_spec m 62); destruct (Z.eqb_spec n 62); lia.
Qed.

(** The four sextets of three octets. *)
Lemma sextets (x y z : Z) :
  is_octet x -> is_octet y -> is_octet z ->
  0 <= x / 4 < 64 /\ 0 <= x mod 4 * 16 + y / 16 < 64
  /\ 0 <= y mod 16 * 4 + z / 64 < 64 /\ 0 <= z mod 64 < 64
  /\ 0 <= x mod 4 * 16 < 64 /\ 0 <= y mod 16 * 4 < 64.
Proof.
  unfold is_octet. intros Hx Hy Hz.
  pose proof (Z.div_mod x 4 ltac:(lia)). pose proof (Z.mod_pos_bound x 4 ltac:(lia)).
  pose proof (Z.div_mod y 16 ltac:(lia)). pose proof (Z.mod_pos_bound y 16 ltac:(lia)).
  pose proof (Z.div_mod z 64 ltac:(lia)). pose proof (Z.mod_pos_bound z 64 ltac:(lia)).
  lia.
Qed.

Lemma octet_0 : is_octet 0.
Proof. unfold is_octet. lia. Qed.

Lemma b64url_one (x : Z) :
  is_octet x -> b64url [x] = [Base64.char (x / 4); Base64.char (x mod 4 * 16)].
Proof.
  intros Hx. destruct (sextets x 0 0 Hx octet_0 octet_0) as (S1 & _ & _ & _ & S2 & _).
  unfold b64url. cbn [Base64.urlsafe_b64encode].
  rewrite !rstrip_cons by (apply char_base64url; assumption). reflexivity.
Qed.

Lemma b64url_two (x y : Z) :
  is_octet x -> is_octet y ->
  b64url [x; y] = [Base64.char (x / 4); Base64.char (x mod 4 * 16 + y / 16);
                   Base64.char (y mod 16 * 4)].
Proof.
  intros Hx Hy. destruct (sextets x y 0 Hx Hy octet_0) as (S1 & S2 & _ & _ & _ & S3).
  unfold b64url. cbn [Base64.urlsafe_b64encode].
  rewrite !rstrip_cons by (apply char_base64url; assumption). reflexivity.
Qed.

Lemma b64url_three (x y z : Z) (rest : bytes) :
  is_octet x -> is_octet y -> is_octet z ->
  b64url (x :: y :: z :: rest)
  = Base64.char (x / 4) :: Base64.char (x mod 4 * 16 + y / 16)
      :: Base64.char (y mod 16 * 4 + z / 64) :: Base64.char (z mod 64) :: b64url rest.
Proof.
  intros Hx Hy Hz. destruct (sextets x y z Hx Hy Hz) as (S1 & S2 & S3 & S4 & _).
  unfold b64url. cbn [Base64.urlsafe_b64encode].
  rewrite !rstrip_cons by (apply char_base64url; assumption). reflexivity.
Qed.

(** Induction three octets at a time, as the encoder reads its input. *)
Lemma octets_ind3 (P : bytes -> Prop) :
  P [] ->
  (forall x, is_octet x -> P [x]) ->
  (forall x y, is_octet x -> is_octet y -> P [x; y]) ->
  (forall x y z rest, is_octet x -> is_octet y -> is_octet z ->
                      Forall is_octet rest -> P rest -> P (x :: y :: z :: rest)) ->
  forall data, Forall is_octet data -> P data.
Proof.
  intros P0 P1 P2 P3.
  assert (A : forall n data, (length data <= n)%nat -> Forall is_octet data -> P data).
  { induction n as [|n IH]; intros data Hl Ho.
    - destruct data; [exact P0|simpl in Hl; lia].
    - destruct data as [|x [|y [|z rest]]].
      + exact P0.
      + inversion Ho; subst. apply P1; assumption.
      + inversion Ho as [|? ? Hx Ho']; subst. inversion Ho'; subst. apply P2; assumption.
      + inversion Ho as [|? ? Hx Ho']; subst. inversion Ho' as [|? ? Hy Ho'']; subst.
        inversion Ho'' as [|? ? Hz Hr]; subst.
        apply P3; try assumption. apply IH; [simpl in Hl; lia|exact Hr]. }
  intros data. apply (A (length data)). lia.
Qed.

(** X21. For every octet string, [b64url] returns characters of the
    URL-safe alphabet only (letters, digits, [-] and [_]), with no padding
    [=] anywhere, and as many of them as the bits need: [(4 n + 2) / 3] for
    [n] octets. *)
Theorem b64url_alphabet_and_length (data : bytes) :
  Forall is_octet data ->
  Forall (fun c => is_base64url_char c = true) (b64url data)
  /\ ~ In Base64.PAD (b64url data)
  /\ Z.of_nat (length (b64url data)) = (4 * Z.of_nat (length data) + 2) / 3.
Proof.
  revert data. apply octets_ind3.
  - split; [constructor|]. split; [intros []|reflexivity].
  - intros x Hx. rewrite (b64url_one x Hx).
    destruct (sextets x 0 0 Hx octet_0 octet_0) as (S1 & _ & _ & _ & S2 & _).
    destruct (char_base64url _ S1) as [A1 B1]. destruct (char_base64url _ S2) as [A2 B2].
    split; [repeat (apply Forall_cons; [assumption|]); apply Forall_nil|].
    split; [|reflexivity].
    intros [H|[H|[]]]; congruence.
  - intros x y Hx Hy. rewrite (b64url_two x y Hx Hy).
    destruct (sextets x y 0 Hx Hy octet_0) as (S1 & S2 & _ & _ & _ & S3).
    destruct (char_base64url _ S1) as [A1 B1]. destruct (char_base64url _ S2) as [A2 B2].
    destruct (char_base64url _ S3) as [A3 B3].
    split; [repeat (apply Forall_cons; [assumption|]); apply Forall_nil|].
    split; [|reflexivity].
    intros [H|[H|[H|[]]]]; congruence.
  - intros x y z rest Hx Hy Hz Hr (IH1 & IH2 & IH3).
    rewrite (b64url_three x y z rest Hx Hy Hz).
    destruct (sextets x y z Hx Hy Hz) as (S1 & S2 & S3 & S4 & _).
    destruct (char_base64url _ S1) as [A1 B1]. destruct (char_base64url _ S2) as [A2 B2].
    destruct (char_base64url _ S3) as [A3 B3]. destruct (char_base64url _ S4) as [A4 B4].
    split; [repeat (apply Forall_cons; [assumption|]); exact IH1|].
    split.
    + intros [H|[H|[H|[H|H]]]]; first [congruence | contradiction].
    + change (length (?a :: ?b :: ?c :: ?d :: ?l)) with (S (S (S (S (length l))))).
      change (length (x :: y :: z :: rest)) with (S (S (S (length rest)))).
      rewrite !Nat2Z.inj_succ, IH3.
      remember (Z.of_nat (length rest)) as n eqn:En.
      assert (0 <= n) by lia.
      pose proof (Z.div_mod (4 * n + 2) 3 ltac:(lia)).
      pose proof (Z.mod_pos_bound (4 * n + 2) 3 ltac:(lia)).
      pose proof (Z.div_mod (4 * Z.succ (Z.succ (Z.succ n)) + 2) 3 ltac:(lia)).
      pose proof (Z.mod_pos_bound (4 * Z.succ (Z.succ (Z.succ n)) + 2) 3 ltac:(lia)).
      lia.
Qed.

Lemma b64url_alphabet_and_length_witness :
  Forall is_octet [255; 239; 190; 0]
  /\ b64url [255; 239; 190; 0] = lit "_---AA"
  /\ Z.of_nat (length (b64url [255; 239; 190; 0])) = 6.
Proof.
  assert (H : Forall is_octet [255; 239; 190; 0]).
  { repeat (apply Forall_cons; [unfold is_octet; lia|]). apply Forall_nil. }
  split; [exact H|]. split; [vm_compute; reflexivity|].
  exact (proj2 (proj2 (b64url_alphabet_and_length [255; 239; 190; 0] H))).
Defined.

Lemma octet_from_sextets (x x' y y' : Z) :
  is_octet x -> is_octet x' -> is_octet y -> is_octet y' ->
  x / 4 = x' / 4 -> x mod 4 * 16 + y / 16 = x' mod 4 * 16 + y' / 16 ->
  x = x' /\ y / 16 = y' / 16.
Proof.
  unfold is_octet. intros Hx Hx' Hy Hy' E1 E2.
  pose proof (Z.div_mod x 4 ltac:(lia)). pose proof (Z.mod_pos_bound x 4 ltac:(lia)).
  pose proof (Z.div_mod x' 4 ltac:(lia)). pose proof (Z.mod_pos_bound x' 4 ltac:(lia)).
  pose proof (Z.div_mod y 16 ltac:(lia)). pose proof (Z.mod_pos_bound y 16 ltac:(lia)).
  pose proof (Z.div_mod y' 16 ltac:(lia)). pose proof (Z.mod_pos_bound y' 16 ltac:(lia)).
  lia.
Qed.

Lemma octet_from_sextets_2 (y y' z z' : Z) :
  is_octet y -> is_octet y' -> is_octet z -> is_octet z' ->
  y / 16 = y' / 16 -> y mod 16 * 4 + z / 64 = y' mod 16 * 4 + z' / 64 ->
  y = y' /\ z / 64 = z' / 64.
Proof.
  unfold is_octet. intros Hy Hy' Hz Hz' E1 E2.
  pose proof (Z.div_mod y 16 ltac:(lia)). pose proof (Z.mod_pos_bound y 16 ltac:(lia)).
  pose proof (Z.div_mod y' 16 ltac:(lia)). pose proof (Z.mod_pos_bound y' 16 ltac:(lia)).
  pose proof (Z.div_mod z 64 ltac:(lia)). pose proof (Z.mod_pos_bound z 64 ltac:(lia)).
  pose proof (Z.div_mod z' 64 ltac:(lia)). pose proof (Z.mod_pos_bound z' 64 ltac:(lia)).
  lia.
Qed.

Lemma octet_from_sextets_3 (z z' : Z) :
  is_octet z -> is_octet z' -> z / 64 = z' / 64 -> z mod 64 = z' mod 64 -> z = z'.
Proof.
  unfold is_octet. intros Hz Hz' E1 E2.
  pose proof (Z.div_mod z 64 ltac:(lia)). pose proof (Z.div_mod z' 64 ltac:(lia)).
  lia.
Qed.

Lemma octets_cases (data : bytes) :
  Forall is_octet data ->
  data = []
  \/ (exists x, is_octet x /\ data = [x])
  \/ (exists x y, is_octet x /\ is_octet y /\ data = [x; y])
  \/ (exists x y z rest, is_octet x /\ is_octet y /\ is_octet z
                         /\ Forall is_octet rest /\ data = x :: y :: z :: rest).
Proof.
  intros Ho. destruct data as [|x [|y [|z rest]]].
  - left. reflexivity.
  - right; left. inversion Ho; subst. exists x. split; [assumption|reflexivity].
  - right; right; left. inversion Ho as [|? ? Hx Ho']; subst. inversion Ho'; subst.
    exists x, y. repeat (split; [assumption|]). reflexivity.
  - right; right; right. inversion Ho as [|? ? Hx Ho']; subst.
    inversion Ho' as [|? ? Hy Ho'']; subst. inversion Ho'' as [|? ? Hz Hr]; subst.
    exists x, y, z, rest. repeat (split; [assumption|]). reflexivity.
Qed.

(** X22. [b64url] loses nothing: two octet strings with the same encoding
    are the same string. *)
Theorem b64url_injective (a b : bytes) :
  Forall is_octet a -> Forall is_octet b -> b64url a = b64url b -> a = b.
Proof.
  intros Ha. revert a Ha b. apply (octets_ind3 (fun a => forall b, Forall is_octet b ->
                                                   b64url a = b64url b -> a = b)).
  - intros b Hb E. change (b64url []) with (@nil Z) in E.
    destruct (octets_cases b Hb)
      as [->|[(x' & Hx' & ->)|[(x' & y' & Hx' & Hy' & ->)
         |(x' & y' & z' & r' & Hx' & Hy' & Hz' & Hr' & ->)]]];
      try (rewrite (b64url_one x') in E by assumption);
      try (rewrite (b64url_two x' y') in E by assumption);
      try (rewrite (b64url_three x' y' z' r') in E by assumption);
      try discriminate E.
    reflexivity.
  - intros x Hx b Hb E. rewrite (b64url_one x Hx) in E.
    destruct (octets_cases b Hb)
      as [->|[(x' & Hx' & ->)|[(x' & y' & Hx' & Hy' & ->)
         |(x' & y' & z' & r' & Hx' & Hy' & Hz' & Hr' & ->)]]];
      try (rewrite (b64url_one x') in E by assumption);
      try (rewrite (b64url_two x' y') in E by assumption);
      try (rewrite (b64url_three x' y' z' r') in E by assumption);
      try discriminate E.
    destruct (sextets x 0 0 Hx octet_0 octet_0) as (S1 & _ & _ & _ & S2 & _).
    destruct (sextets x' 0 0 Hx' octet_0 octet_0) as (S1' & _ & _ & _ & S2' & _).
    assert (E1 : Base64.char (x / 4) = Base64.char (x' / 4)) by congruence.
    assert (E2 : Base64.char (x mod 4 * 16) = Base64.char (x' mod 4 * 16)) by congruence.
    apply char_injective in E1; [|assumption|assumption].
    apply char_injective in E2; [|assumption|assumption].
    destruct (octet_from_sextets x x' 0 0 Hx Hx' octet_0 octet_0 E1) as [-> _];
      [change (0 / 16) with 0; lia|reflexivity].
  - intros x y Hx Hy b Hb E. rewrite (b64url_two x y Hx Hy) in E.
    destruct (octets_cases b Hb)
      as [->|[(x' & Hx' & ->)|[(x' & y' & Hx' & Hy' & ->)
         |(x' & y' & z' & r' & Hx' & Hy' & Hz' & Hr' & ->)]]];
      try (rewrite (b64url_one x') in E by assumption);
      try (rewrite (b64url_two x' y') in E by assumption);
      try (rewrite (b64url_three x' y' z' r') in E by assumption);
      try discriminate E.
    destruct (sextets x y 0 Hx Hy octet_0) as (S1 & S2 & _ & _ & _ & S3).
    destruct (sextets x' y' 0 Hx' Hy' octet_0) as (S1' & S2' & _ & _ & _ & S3').
    assert (E1 : Base64.char (x / 4) = Base64.char (x' / 4)) by congruence.
    assert (E2 : Base64.char (x mod 4 * 16 + y / 16)
                 = Base64.char (x' mod 4 * 16 + y' / 16)) by congruence.
    assert (E3 : Base64.char (y mod 16 * 4) = Base64.char (y' mod 16 * 4)) by congruence.
    apply char_injective in E1; [|assumption|assumption].
    apply char_injective in E2; [|assumption|assumption].
    apply char_injective in E3; [|assumption|assumption].
    destruct (octet_from_sextets x x' y y' Hx Hx' Hy Hy' E1 E2) as [-> E4].
    destruct (octet_from_sextets_2 y y' 0 0 Hy Hy' octet_0 octet_0 E4) as [-> _];
      [change (0 / 64) with 0; lia|reflexivity].
  - intros x y z rest Hx Hy Hz Hr IH b Hb E. rewrite (b64url_three x y z rest Hx Hy Hz) in E.
    destruct (octets_cases b Hb)
      as [->|[(x' & Hx' & ->)|[(x' & y' & Hx' & Hy' & ->)
         |(x' & y' & z' & r' & Hx' & Hy' & Hz' & Hr' & ->)]]];
      try (rewrite (b64url_one x') in E by assumption);
      try (rewrite (b64url_two x' y') in E by assumption);
      try (rewrite (b64url_three x' y' z' r') in E by assumption);
      try discriminate E.
    destruct (sextets x y z Hx Hy Hz) as (S1 & S2 & S3 & S4 & _).
    destruct (sextets x' y' z' Hx' Hy' Hz') as (S1' & S2' & S3' & S4' & _).
    assert (E1 : Base64.char (x / 4) = Base64.char (x' / 4)) by congruence.
    assert (E2 : Base64.char (x mod 4 * 16 + y / 16)
                 = Base64.char (x' mod 4 * 16 + y' / 16)) by congruence.
    assert (E3 : Base64.char (y mod 16 * 4 + z / 64)
                 = Base64.char (y' mod 16 * 4 + z' / 64)) by congruence.
    assert (E4 : Base64.char (z mod 64) = Base64.char (z' mod 64)) by congruence.
    assert (E5 : b64url rest = b64url r') by congruence.
    apply char_injective in E1; [|assumption|assumption].
    apply char_injective in E2; [|assumption|assumption].
    apply char_injective in E3; [|assumption|assumption].
    apply char_injective in E4; [|assumption|assumption].
    destruct (octet_from_sextets x x' y y' Hx Hx' Hy Hy' E1 E2) as [-> E6].
    destruct (octet_from_sextets_2 y y' z z' Hy Hy' Hz Hz' E6 E3) as [-> E7].
    rewrite (octet_from_sextets_3 z z' Hz Hz' E7 E4), (IH r' Hr' E5). reflexivity.
Qed.

Lemma b64url_injective_witness :
  (Forall is_octet [72; 105] /\ b64url [72; 105] = lit "SGk")
  /\ [72; 105] = [72; 105].
Proof.
  assert (H : Forall is_octet [72; 105]).
  { repeat (apply Forall_cons; [unfold is_octet; lia|]). apply Forall_nil. }
  split; [split; [exact H|vm_compute; reflexivity]|].
  exact (b64url_injective [72; 105] [72; 105] H H eq_refl).
Defined.

(** ** The errors of the handler *)





Lemma mapping_keeps_last_occurrence_witness :
  parse_qsl (lit "a=1&hash=x&a=2") = [(lit "a", lit "1"); (lit "hash", lit "x")]
                                     ++ (lit "a", lit "2") :: []
  /\ dict_get (snd (build_data_check_string (lit "a=1&hash=x&a=2"))) (lit "a")
     = Some (lit "2").
Proof.
  assert (H : parse_qsl (lit "a=1&hash=x&a=2")
              = [(lit "a", lit "1"); (lit "hash", lit "x")] ++ (lit "a", lit "2") :: [])
    by (vm_compute; reflexivity).
  split; [exact H|].
  apply (proj2 (proj2 (proj2 (mapping_keeps_last_occurrence (lit "a=1&hash=x&a=2"))))
           (lit "a") (lit "2") _ [] H).
  intros [].
Defined.


